(** * hotlib: a shallow embedding of [src/lib.rs] and its specification

    Strings, file names and file contents are byte lists ([list Z], each
    byte in [0, 256)); a path is the list of its components.  The effectful
    code (the filesystem, the spawned processes, [libloading]) runs in a
    small state/result monad over an explicit world whose external
    behaviour (what [std::fs::copy], [install_name_tool] or [dlopen] do) is
    read off an environment record. *)

From Stdlib Require Import ZArith List Lia Bool String Ascii.
Import ListNotations.
Open Scope Z_scope.

Definition bytes := list Z.

(** UTF-8 bytes of an ASCII string literal. *)
Definition b (s : string) : bytes :=
  map (fun a => Z.of_nat (nat_of_ascii a)) (list_ascii_of_string s).

Definition bytes_eqb (x y : bytes) : bool :=
  if list_eq_dec Z.eq_dec x y then true else false.

(** ** [std::time::SystemTime]

    A system time is the signed duration since [UNIX_EPOCH] it denotes:
    whole seconds and the sub-second nanoseconds ([0 <= st_nanos < 10^9]). *)
Record SystemTime := mkTime { st_secs : Z; st_nanos : Z }.

Definition SystemTime_wf (t : SystemTime) : Prop :=
  0 <= st_nanos t < 1000000000.

(** ** [humantime::format_rfc3339] (smart precision)

    The calendar part of the [Display] implementation of
    [Rfc3339Timestamp]: from days since 2000-03-01 to (year, month, day).
    [Z.quot] and [Z.rem] are Rust's [/] and [%] on [i64]. *)

Definition months : list Z := [31; 30; 31; 30; 31; 31; 30; 31; 30; 31; 31; 29].

(** [for mon_len in months.iter() { mon += 1; if remdays < *mon_len { break; }
     remdays -= *mon_len; }] *)
Fixpoint month_loop (lens : list Z) (mon remdays : Z) : Z * Z :=
  match lens with
  | [] => (mon, remdays)
  | len :: rest =>
      if remdays <? len then (mon + 1, remdays)
      else month_loop rest (mon + 1) (remdays - len)
  end.

Definition LEAPOCH : Z := 11017.
Definition DAYS_PER_400Y : Z := 365 * 400 + 97.
Definition DAYS_PER_100Y : Z := 365 * 100 + 24.
Definition DAYS_PER_4Y : Z := 365 * 4 + 1.

Definition civil (days : Z) : Z * Z * Z :=
  let qc_cycles0 := Z.quot days DAYS_PER_400Y in
  let remdays0 := Z.rem days DAYS_PER_400Y in
  let '(qc_cycles, remdays1) :=
    if remdays0 <? 0 then (qc_cycles0 - 1, remdays0 + DAYS_PER_400Y)
    else (qc_cycles0, remdays0) in
  let c_cycles0 := Z.quot remdays1 DAYS_PER_100Y in
  let c_cycles := if c_cycles0 =? 4 then c_cycles0 - 1 else c_cycles0 in
  let remdays2 := remdays1 - c_cycles * DAYS_PER_100Y in
  let q_cycles0 := Z.quot remdays2 DAYS_PER_4Y in
  let q_cycles := if q_cycles0 =? 25 then q_cycles0 - 1 else q_cycles0 in
  let remdays3 := remdays2 - q_cycles * DAYS_PER_4Y in
  let remyears0 := Z.quot remdays3 365 in
  let remyears := if remyears0 =? 4 then remyears0 - 1 else remyears0 in
  let remdays4 := remdays3 - remyears * 365 in
  let year := 2000 + remyears + 4 * q_cycles + 100 * c_cycles + 400 * qc_cycles in
  let '(mon, remdays5) := month_loop months 0 remdays4 in
  let mday := remdays5 + 1 in
  if 12 <? mon + 2 then (year + 1, mon - 10, mday) else (year, mon + 2, mday).

(** [b'0' + (x as u8)], with the wrap-around of [u8] written out. *)
Definition digit (x : Z) : Z := (48 + x mod 256) mod 256.

(** [format!("{}", humantime::format_rfc3339(t))].  [None] is a panic:
    [duration_since(UNIX_EPOCH).expect(..)] for a time before the epoch, and
    [format!] on the [fmt::Error] returned from year 10000 on.  Smart
    precision writes no fraction when the nanoseconds are zero and all nine
    digits otherwise. *)
Definition format_rfc3339 (t : SystemTime) : option bytes :=
  let secs_since_epoch := st_secs t in
  let nanos := st_nanos t in
  if secs_since_epoch <? 0 then None
  else if 253402300800 <=? secs_since_epoch then None
  else
    let days := secs_since_epoch / 86400 - LEAPOCH in
    let secs_of_day := secs_since_epoch mod 86400 in
    let '(year, mon, mday) := civil days in
    let head :=
      [digit (year / 1000); digit (year / 100 mod 10);
       digit (year / 10 mod 10); digit (year mod 10); 45;
       digit (mon / 10); digit (mon mod 10); 45;
       digit (mday / 10); digit (mday mod 10); 84;
       digit (secs_of_day / 3600 / 10); digit (secs_of_day / 3600 mod 10); 58;
       digit (secs_of_day / 60 / 10 mod 6); digit (secs_of_day / 60 mod 10); 58;
       digit (secs_of_day / 10 mod 6); digit (secs_of_day mod 10)] in
    if nanos =? 0 then Some (head ++ [90])
    else Some (head ++
      [46; digit (nanos / 100000000); digit (nanos / 10000000 mod 10);
       digit (nanos / 1000000 mod 10); digit (nanos / 100000 mod 10);
       digit (nanos / 10000 mod 10); digit (nanos / 1000 mod 10);
       digit (nanos / 100 mod 10); digit (nanos / 10 mod 10);
       digit (nanos mod 10); 90]).

(** ** [slug::slugify] on ASCII input

    Lower-case letters and digits are kept, upper-case letters lowered, and
    every run of other bytes becomes one ['-'] ([prev_is_dash] starts
    [true], so no leading dash); a trailing dash is popped.  Only the ASCII
    output of [format_rfc3339] reaches it, so [deunicode] is not modelled. *)
Fixpoint slug_go (prev_is_dash : bool) (s : bytes) : bytes :=
  match s with
  | [] => []
  | x :: rest =>
      if ((97 <=? x) && (x <=? 122)) || ((48 <=? x) && (x <=? 57))
      then x :: slug_go false rest
      else if (65 <=? x) && (x <=? 90) then (x - 65 + 97) :: slug_go false rest
      else if prev_is_dash then slug_go true rest
      else 45 :: slug_go true rest
  end.

Definition slugify (s : bytes) : bytes :=
  let v := slug_go true s in
  match rev v with
  | 45 :: r => rev r
  | _ => v
  end.

(** ** Paths: [Path::join], [Path::with_extension], [Path::parent] *)

Definition path := list bytes.

Definition path_eqb (p q : path) : bool :=
  if list_eq_dec (list_eq_dec Z.eq_dec) p q then true else false.

(** [p.join(c)] for a component [c] holding no separator. *)
Definition join (p : path) (c : bytes) : path := p ++ [c].

(** [rsplitn(2, |b| *b == b'.')] on a file name: the bytes before and after
    its last dot, if it has one. *)
Fixpoint last_dot_split (f : bytes) : option (bytes * bytes) :=
  match f with
  | [] => None
  | x :: rest =>
      match last_dot_split rest with
      | Some (before, after) => Some (x :: before, after)
      | None => if x =? 46 then Some ([], rest) else None
      end
  end.

(** [Path::file_stem] of a file name ([rsplit_file_at_dot]). *)
Definition file_stem_of (f : bytes) : bytes :=
  if bytes_eqb f [46; 46] then f
  else match last_dot_split f with
       | None => f
       | Some ([], _) => f
       | Some (before, _) => before
       end.

(** [p.with_extension(ext)]: the file name is cut after its stem and
    ['.' ++ ext] appended; a path without a file name is left alone. *)
Definition with_extension (p : path) (ext : bytes) : path :=
  match rev p with
  | [] => p
  | f :: rdir =>
      if bytes_eqb f [46; 46] then p
      else rev rdir ++ [file_stem_of f ++ (match ext with [] => [] | _ => 46 :: ext end)]
  end.

(** [Path::parent], for a path given by its components. *)
Definition parent (p : path) : option path :=
  match p with [] => None | _ => Some (removelast p) end.

(** ** Platform-dependent choices ([cfg!(target_os = ..)]) *)

Inductive Platform := Linux | MacOS | IOS | Windows | OtherOS.

(** [dylib_ext]; [None] is the [panic!] on an unknown platform. *)
Definition dylib_ext (os : Platform) : option bytes :=
  match os with
  | Linux => Some (b "so")
  | MacOS | IOS => Some (b "dylib")
  | Windows => Some (b "dll")
  | OtherOS => None
  end.

(** [Build::file_stem] and [TempLibrary::file_stem]. *)
Definition file_stem (os : Platform) (lib_name : bytes) : bytes :=
  match os with
  | Windows => lib_name
  | _ => b "lib" ++ lib_name
  end.

(** [tmp_dir()]: [std::env::temp_dir().join("hotlib")]. *)
Definition tmp_dir (temp_root : path) : path := join temp_root (b "hotlib").

(** [tmp_file_stem] of [Build] and of [TempLibrary]; [None] is a panic
    of the timestamp formatting. *)
Definition tmp_file_stem (os : Platform) (lib_name : bytes) (ts : SystemTime)
  : option bytes :=
  match format_rfc3339 ts with
  | None => None
  | Some rfc => Some (file_stem os lib_name ++ [45] ++ slugify rfc)
  end.

(** [tmp_dylib_path] of [Build] and of [TempLibrary]:
    [tmp_dir().join(stem).with_extension(dylib_ext())]. *)
Definition tmp_dylib_path (os : Platform) (temp_root : path) (lib_name : bytes)
  (ts : SystemTime) : option path :=
  match tmp_file_stem os lib_name ts with
  | None => None
  | Some stem =>
      match dylib_ext os with
      | None => None
      | Some ext => Some (with_extension (join (tmp_dir temp_root) stem) ext)
      end
  end.

(** Display of a path: its components joined by ['/']. *)
Definition display (p : path) : bytes :=
  match p with
  | [] => []
  | c :: rest => c ++ flat_map (fun c' => 47 :: c') rest
  end.

(** [Path::new(s)] for a ['/']-separated string: its components (a leading
    ['/'] gives an empty first component, the root). *)
Fixpoint split_on (sep : Z) (s : bytes) : list bytes :=
  match s with
  | [] => [[]]
  | x :: rest =>
      let parts := split_on sep rest in
      if x =? sep then [] :: parts
      else match parts with
           | part :: others => (x :: part) :: others
           | [] => [[x]]
           end
  end.

Definition path_of_str (s : bytes) : path := split_on 47 s.

(** [Path::file_name]. *)
Definition file_name (p : path) : option bytes :=
  match rev p with
  | [] => None
  | f :: _ => if bytes_eqb f [46; 46] then None else Some f
  end.

(** [Path::ends_with(c)] for a one-component [c]: the last component is [c]. *)
Definition ends_with (p : path) (c : bytes) : bool :=
  match rev p with
  | [] => false
  | f :: _ => bytes_eqb f c
  end.

(** [String::from_utf8(..).is_ok()]: well-formed UTF-8 (shortest forms, no
    surrogates, at most U+10FFFF). *)
Definition cont (x : Z) : bool := (128 <=? x) && (x <=? 191).

Fixpoint utf8_valid (s : bytes) : bool :=
  match s with
  | [] => true
  | x :: rest =>
      if x <? 128 then utf8_valid rest
      else if (194 <=? x) && (x <=? 223) then
        match rest with
        | c1 :: r => cont c1 && utf8_valid r
        | _ => false
        end
      else if (224 <=? x) && (x <=? 239) then
        match rest with
        | c1 :: c2 :: r =>
            (if x =? 224 then (160 <=? c1) && (c1 <=? 191)
             else if x =? 237 then (128 <=? c1) && (c1 <=? 159)
             else cont c1) && cont c2 && utf8_valid r
        | _ => false
        end
      else if (240 <=? x) && (x <=? 244) then
        match rest with
        | c1 :: c2 :: c3 :: r =>
            (if x =? 240 then (144 <=? c1) && (c1 <=? 191)
             else if x =? 244 then (128 <=? c1) && (c1 <=? 143)
             else cont c1) && cont c2 && cont c3 && utf8_valid r
        | _ => false
        end
      else false
  end.

(** ** [serde_json::Value] and [cargo metadata] *)

Set Warnings "-register-all".
Inductive Json :=
  | JNull
  | JBool (x : bool)
  | JNumber (n : Z)
  | JString (s : bytes)
  | JArray (l : list Json)
  | JObject (m : list (bytes * Json)).

Definition as_object (j : Json) : option (list (bytes * Json)) :=
  match j with JObject m => Some m | _ => None end.
Definition as_array (j : Json) : option (list Json) :=
  match j with JArray l => Some l | _ => None end.
Definition as_str (j : Json) : option bytes :=
  match j with JString s => Some s | _ => None end.

(** [Map::get] on a parsed object (its keys are distinct). *)
Fixpoint obj_get (m : list (bytes * Json)) (k : bytes) : option Json :=
  match m with
  | [] => None
  | (k', v) :: rest => if bytes_eqb k' k then Some v else obj_get rest k
  end.

(** [Value::get] with a string index. *)
Definition get (j : Json) (k : bytes) : option Json :=
  match j with JObject m => obj_get m k | _ => None end.

Definition obind {A B} (m : option A) (k : A -> option B) : option B :=
  match m with Some a => k a | None => None end.
Notation "x <-? m ;; k" := (obind m (fun x => k))
  (at level 61, m at next level, right associativity).

Fixpoint find_map {A B} (f : A -> option B) (l : list A) : option B :=
  match l with
  | [] => None
  | x :: rest => match f x with Some y => Some y | None => find_map f rest end
  end.

(** [kind.iter().find(|k| k.as_str() == Some("dylib")).is_some()] *)
Definition has_dylib_kind (kind : list Json) : bool :=
  existsb (fun k => match as_str k with Some s => bytes_eqb s (b "dylib") | None => false end)
    kind.

(** The [read_json] closure of [watch]: target directory, source root and
    library name of the first dylib target of the package whose manifest
    is [manifest_path_str]. *)
Definition read_json (manifest_path_str : bytes) (json : Json)
  : option (path * path * bytes) :=
  obj <-? as_object json ;;
  tds <-? obind (obj_get obj (b "target_directory")) as_str ;;
  pkgs <-? obind (obj_get obj (b "packages")) as_array ;;
  pkg <-? find_map (fun pkg =>
            s <-? obind (get pkg (b "manifest_path")) as_str ;;
            if bytes_eqb s manifest_path_str then Some pkg else None) pkgs ;;
  targets <-? obind (get pkg (b "targets")) as_array ;;
  target <-? find_map (fun target =>
               kind <-? obind (get target (b "kind")) as_array ;;
               if has_dylib_kind kind then Some target else None) targets ;;
  lib_name <-? obind (get target (b "name")) as_str ;;
  src_root_str <-? obind (get target (b "src_path")) as_str ;;
  Some (path_of_str tds, path_of_str src_root_str, lib_name).

(** ** [notify] events and the event channel of [Watch] *)

Inductive AccessMode := AMAny | AMExecute | AMRead | AMWrite | AMOther.
Inductive AccessKind :=
  | AKAny | AKRead | AKOpen (m : AccessMode) | AKClose (m : AccessMode) | AKOther.
Inductive CreateKind := CKAny | CKFile | CKFolder | CKOther.
Inductive DataChange := DCAny | DCSize | DCContent | DCOther.
Inductive ModifyKind := MKAny | MKData (d : DataChange) | MKMetadata | MKName | MKOther.
Inductive RemoveKind := RKAny | RKFile | RKFolder | RKOther.

Inductive EventKind :=
  | EKAny
  | EKAccess (k : AccessKind)
  | EKCreate (k : CreateKind)
  | EKModify (k : ModifyKind)
  | EKRemove (k : RemoveKind)
  | EKOther.

Record NotifyEvent := { kind : EventKind; paths : list path }.

(** [notify::Error], kept abstract: its message. *)
Record NotifyError := { notify_msg : bytes }.

Definition is_create (k : EventKind) : bool :=
  match k with EKCreate _ => true | _ => false end.
Definition is_remove (k : EventKind) : bool :=
  match k with EKRemove _ => true | _ => false end.
Definition is_modify (k : EventKind) : bool :=
  match k with EKModify _ => true | _ => false end.

Inductive result (A E : Type) := Ok (a : A) | Err (e : E).
Arguments Ok {A E} a.
Arguments Err {A E} e.

Inductive NextError := ChannelClosed | NextNotify (err : NotifyError).

(** [check_raw_event] *)
Definition check_raw_event (event : NotifyEvent) : result bool NextError :=
  let k := kind event in
  let close_write :=
    match kind event with
    | EKAccess (AKClose AMWrite) => true
    | _ => false
    end in
  Ok (is_create k || is_remove k || is_modify k || close_write).

(** The [crossbeam_channel] receiver: the queued messages, and whether every
    sender is gone. *)
Definition ChannelMessage := result NotifyEvent NotifyError.
Record Channel := { queue : list ChannelMessage; disconnected : bool }.

Record PackageInfo := {
  manifest_path : path;
  src_path : path;
  pi_lib_name : bytes;
  pi_target_dir_path : path
}.

(** [Package { info: &self.package_info }]: a view of the package info. *)
Definition Package := PackageInfo.

Record Watch := { package_info : PackageInfo; event_rx : Channel }.

(** The outcome of a blocking call: it returns, leaving the channel in the
    given state, or it blocks on an empty connected channel. *)
Inductive Blocking (A : Type) := Returns (a : A) (rx : Channel) | Blocks.
Arguments Returns {A} a rx.
Arguments Blocks {A}.

(** The [loop] of [Watch::next] over the queued messages: [recv] returns the
    next message, or [Err] once the queue is empty and disconnected. *)
Fixpoint next_loop (info : PackageInfo) (q : list ChannelMessage) (disc : bool)
  : Blocking (result Package NextError) :=
  match q with
  | [] =>
      if disc then Returns (Err ChannelClosed) {| queue := []; disconnected := disc |}
      else Blocks
  | msg :: rest =>
      match msg with
      | Err e => Returns (Err (NextNotify e)) {| queue := rest; disconnected := disc |}
      | Ok event =>
          match check_raw_event event with
          | Err e => Returns (Err e) {| queue := rest; disconnected := disc |}
          | Ok true => Returns (Ok info) {| queue := rest; disconnected := disc |}
          | Ok false => next_loop info rest disc
          end
      end
  end.

(** [Watch::next] *)
Definition next (w : Watch) : Blocking (result Package NextError) :=
  next_loop (package_info w) (queue (event_rx w)) (disconnected (event_rx w)).

(** ** The world the loader acts on *)

(** [std::process::Output] *)
Record Output := {
  status_success : bool;
  status_code : option Z;
  stdout : bytes;
  stderr : bytes
}.

(** A [libloading::Library], named by the number of the [dlopen] that
    produced it. *)
Definition Library := nat.

(** Everything observable that the code does, in order. *)
Inductive Event :=
  | EvWriteFile (p : path)
  | EvCreateDirAll (p : path)
  | EvCopy (src dst : path)
  | EvSpawn (program : bytes) (cwd : option path) (args : list bytes)
  | EvDlopen (p : path) (ok : bool)
  | EvUnload (lib : Library)
  | EvRemoveFile (p : path) (ok : bool)
  | EvWatcherCreated
  | EvWatch (p : path).

(** The files (path to contents), the number of the next [dlopen], and the
    trace of events so far. *)
Record World := {
  w_fs : path -> option bytes;
  w_next_lib : nat;
  w_trace : list Event
}.

Definition set_file (w : World) (p : path) (v : option bytes) : World :=
  {| w_fs := fun q => if path_eqb q p then v else w_fs w q;
     w_next_lib := w_next_lib w; w_trace := w_trace w |}.

Definition emit (w : World) (e : Event) : World :=
  {| w_fs := w_fs w; w_next_lib := w_next_lib w; w_trace := w_trace w ++ [e] |}.

(** What the operating system and the external tools do. *)
Record Env := {
  env_os : Platform;
  (** [std::env::temp_dir()] *)
  env_temp_root : path;
  (** [Metadata::created] of an existing file ([None]: unsupported) *)
  env_created : path -> option SystemTime;
  (** whether [create_dir_all], [copy] and [write] succeed *)
  env_create_dir_all_ok : path -> bool;
  env_copy_ok : path -> path -> bool;
  env_write_ok : path -> bool;
  (** [install_name_tool] run on a file with the given contents: [None] if it
      cannot be started, else its output and the file's new contents *)
  env_install_name_tool : option bytes -> option (Output * option bytes);
  (** whether the dynamic loader maps a file with these contents *)
  env_loader_accepts : bytes -> bool;
  (** [cargo metadata] for a manifest path ([None]: cannot be started) *)
  env_cargo_metadata : bytes -> option Output;
  (** [serde_json::from_slice] *)
  env_parse_json : bytes -> option Json;
  (** whether [notify::recommended_watcher] and [watcher.watch] succeed *)
  env_watcher_ok : bool;
  env_watch_ok : path -> bool
}.

(** ** A state monad with Rust's ways to end: [Ok], [Err], a panic, or a
    loop that has not finished within its iteration budget. *)

Inductive Res (E A : Type) := ROk (a : A) | RErr (e : E) | RPanic | RDiverge.
Arguments ROk {E A} a.
Arguments RErr {E A} e.
Arguments RPanic {E A}.
Arguments RDiverge {E A}.

Definition M (E A : Type) := World -> Res E A * World.

Definition ret {E A} (a : A) : M E A := fun w => (ROk a, w).
Definition throw {E A} (e : E) : M E A := fun w => (RErr e, w).
Definition panic {E A} : M E A := fun w => (RPanic, w).
Definition bind {E A B} (m : M E A) (k : A -> M E B) : M E B :=
  fun w =>
    match m w with
    | (ROk a, w') => k a w'
    | (RErr e, w') => (RErr e, w')
    | (RPanic, w') => (RPanic, w')
    | (RDiverge, w') => (RDiverge, w')
    end.

Notation "x <- m ;; k" := (bind m (fun x => k))
  (at level 61, m at next level, right associativity).
Notation "m ;;; k" := (bind m (fun _ => k)) (at level 61, right associativity).

(** [.expect(..)] / [.unwrap()] on an [Option]. *)
Definition expect {E A} (o : option A) : M E A :=
  match o with Some a => ret a | None => panic end.

(** [loop { .. }] whose body returns [Some] to leave it, with a budget of
    [fuel] iterations. *)
Fixpoint loop {E A} (fuel : nat) (body : M E (option A)) : M E A :=
  match fuel with
  | O => fun w => (RDiverge, w)
  | S n => x <- body ;; match x with Some a => ret a | None => loop n body end
  end.

(** ** The program *)

Inductive LoadError := LoadIo | LoadLibrary.

Inductive CreateTempLibraryError :=
  | CouldNotLoadDirectlyFromDylib (p : path) (error : LoadError)
  | CannotGetMetadata (p : path)
  | CannotGetFileCreationTime (p : path)
  | CreateLoadError (error : LoadError).

Inductive WatchError :=
  | InvalidPath
  | WatchIo
  | ExitStatusUnsuccessful (code : option Z) (stderr : bytes)
  | WatchJson
  | NoDylibTarget
  | WatchNotify.

(** [Build]; the cargo [output] it also carries is not used by loading. *)
Record Build := { lib_name : bytes; target_dir_path : path; timestamp : SystemTime }.

(** [TempLibrary]: [lib] is [Some] until [drop] takes it. *)
Record TempLibrary := {
  build_timestamp : SystemTime;
  tl_path : path;
  tl_lib : option Library
}.

Section Program.

Variable env : Env.

Definition is_macos : bool :=
  match env_os env with MacOS => true | _ => false end.

(** [p.exists()] and [p.metadata().is_ok()] *)
Definition path_exists {E} (p : path) : M E bool :=
  fun w => (ROk (match w_fs w p with Some _ => true | None => false end), w).

(** [std::fs::create_dir_all(d).is_ok()] *)
Definition create_dir_all {E} (d : path) : M E bool :=
  fun w => if env_create_dir_all_ok env d then (ROk true, emit w (EvCreateDirAll d))
           else (ROk false, w).

(** [std::fs::copy(src, dst).is_ok()] *)
Definition fs_copy {E} (src dst : path) : M E bool :=
  fun w =>
    match w_fs w src with
    | Some contents =>
        if env_copy_ok env src dst
        then (ROk true, emit (set_file w dst (Some contents)) (EvCopy src dst))
        else (ROk false, w)
    | None => (ROk false, w)
    end.

(** [std::fs::write(p, contents).is_ok()] *)
Definition fs_write {E} (p : path) (contents : bytes) : M E bool :=
  fun w => if env_write_ok env p
           then (ROk true, emit (set_file w p (Some contents)) (EvWriteFile p))
           else (ROk false, w).

(** [Command::new("install_name_tool").current_dir(dir).arg("-id").arg("''")
    .arg(file_name).output()], run on the file [target]; [None] is the
    [Err] of a process that could not be started. *)
Definition run_install_name_tool {E} (dir target : path) (fname : bytes)
  : M E (option Output) :=
  fun w =>
    let w1 := emit w (EvSpawn (b "install_name_tool") (Some dir) [b "-id"; b "''"; fname]) in
    match env_install_name_tool env (w_fs w target) with
    | None => (ROk None, w1)
    | Some (out, contents) => (ROk (Some out), set_file w1 target contents)
    end.

(** [libloading::Library::new(p).ok()] *)
Definition library_new {E} (p : path) : M E (option Library) :=
  fun w =>
    match w_fs w p with
    | Some contents =>
        if env_loader_accepts env contents
        then (ROk (Some (w_next_lib w)),
              emit {| w_fs := w_fs w; w_next_lib := S (w_next_lib w);
                      w_trace := w_trace w |} (EvDlopen p true))
        else (ROk None, emit w (EvDlopen p false))
    | None => (ROk None, emit w (EvDlopen p false))
    end.

(** [std::fs::remove_file(p)], whose result [drop] discards. *)
Definition remove_file (p : path) (w : World) : bool * World :=
  match w_fs w p with
  | Some _ => (true, emit (set_file w p None) (EvRemoveFile p true))
  | None => (false, emit w (EvRemoveFile p false))
  end.

(** [Build::dylib_path] *)
Definition build_dylib_path (bd : Build) : option path :=
  match dylib_ext (env_os env) with
  | None => None
  | Some ext =>
      Some (with_extension
              (join (join (target_dir_path bd) (b "release"))
                    (file_stem (env_os env) (lib_name bd))) ext)
  end.

(** [Build::tmp_dylib_path] *)
Definition build_tmp_dylib_path (bd : Build) : option path :=
  tmp_dylib_path (env_os env) (env_temp_root env) (lib_name bd) (timestamp bd).

(** One iteration of the [loop] of [Build::load]. *)
Definition build_load_body (bd : Build) (dylib_path tmp_path tmp_dir : path)
  : M LoadError (option TempLibrary) :=
  e <- path_exists tmp_path ;;
  if e then
    (if is_macos then
       fname <- expect (file_name tmp_path) ;;
       o <- run_install_name_tool tmp_dir tmp_path fname ;;
       (* [.expect("ls command failed to start")]; the output is unused *)
       match o with None => panic | Some _ => ret tt end
     else ret tt) ;;;
    l <- library_new tmp_path ;;
    match l with
    | None => throw LoadLibrary
    | Some lib =>
        ret (Some {| build_timestamp := timestamp bd; tl_path := tmp_path;
                     tl_lib := Some lib |})
    end
  else
    ok <- create_dir_all tmp_dir ;;
    if negb ok then throw LoadIo else
    ok' <- fs_copy dylib_path tmp_path ;;
    if negb ok' then throw LoadIo else ret None.

(** [Build::load], its [loop] given [fuel] iterations. *)
Definition build_load (fuel : nat) (bd : Build) : M LoadError TempLibrary :=
  dylib_path <- expect (build_dylib_path bd) ;;
  tmp_path <- expect (build_tmp_dylib_path bd) ;;
  tmp_dir <- expect (parent tmp_path) ;;
  loop fuel (build_load_body bd dylib_path tmp_path tmp_dir).

(** The file [TempLibrary::new] writes before its loop. *)
Definition debug_file : path := path_of_str (b "/tmp/fuckafucka").

(** [format!{"dmt at {:?}", tmp_path}] (the [Debug] quoting of a path
    without characters to escape). *)
Definition debug_contents (tmp_path : path) : bytes :=
  b "dmt at " ++ [34] ++ display tmp_path ++ [34].

(** One iteration of the [loop] of [TempLibrary::new]. *)
Definition temp_library_new_body (dylib_path : path) (bts : SystemTime)
  (tmp_path tmp_dir : path) : M CreateTempLibraryError (option TempLibrary) :=
  e <- path_exists tmp_path ;;
  if e then
    (if is_macos then
       fname <- expect (file_name tmp_path) ;;
       o <- run_install_name_tool tmp_dir tmp_path fname ;;
       match o with
       | None => panic
       | Some out =>
           (* [String::from_utf8(output.stdout).unwrap()], then stderr;
              a failed status is only logged *)
           if utf8_valid (stdout out) then
             if utf8_valid (stderr out) then ret tt else panic
           else panic
       end
     else ret tt) ;;;
    l <- library_new dylib_path ;;
    match l with
    | None => throw (CouldNotLoadDirectlyFromDylib dylib_path LoadLibrary)
    | Some lib =>
        ret (Some {| build_timestamp := bts; tl_path := tmp_path; tl_lib := Some lib |})
    end
  else
    ok <- create_dir_all tmp_dir ;;
    if negb ok then throw (CreateLoadError LoadIo) else
    ok' <- fs_copy dylib_path tmp_path ;;
    if negb ok' then throw (CreateLoadError LoadIo) else ret None.

(** [TempLibrary::new], its [loop] given [fuel] iterations. *)
Definition temp_library_new (fuel : nat) (dylib_path : path) (name : bytes)
  : M CreateTempLibraryError TempLibrary :=
  has_metadata <- path_exists dylib_path ;;
  if negb has_metadata then throw (CannotGetMetadata dylib_path) else
  match env_created env dylib_path with
  | None => throw (CannotGetFileCreationTime dylib_path)
  | Some bts =>
      tmp_path <- expect (tmp_dylib_path (env_os env) (env_temp_root env) name bts) ;;
      tmp_dir <- expect (parent tmp_path) ;;
      written <- fs_write debug_file (debug_contents tmp_path) ;;
      (if written then ret tt else panic) ;;;
      loop fuel (temp_library_new_body dylib_path bts tmp_path tmp_dir)
  end.

(** [impl Drop for TempLibrary]: [std::mem::drop(self.lib.take())], then
    [std::fs::remove_file(&self.path).ok()].  It returns nothing. *)
Definition drop_temp_library (h : TempLibrary) (w : World) : TempLibrary * World :=
  let taken := tl_lib h in
  let h1 := {| build_timestamp := build_timestamp h; tl_path := tl_path h;
               tl_lib := None |} in
  let w1 := match taken with Some lib => emit w (EvUnload lib) | None => w end in
  let '(_, w2) := remove_file (tl_path h1) w1 in
  (h1, w2).

(** [Command::new("cargo").arg("metadata")...output()]; [None] is an I/O
    error starting it. *)
Definition cargo_metadata {E} (manifest_path_str : bytes) : M E (option Output) :=
  fun w =>
    (ROk (env_cargo_metadata env manifest_path_str),
     emit w (EvSpawn (b "cargo") None
               [b "metadata"; b "--manifest-path"; manifest_path_str;
                b "--format-version"; b "1"])).

(** [notify::recommended_watcher(sender)] *)
Definition recommended_watcher {E} : M E bool :=
  fun w => if env_watcher_ok env then (ROk true, emit w EvWatcherCreated)
           else (ROk false, w).

(** [watcher.watch(p, RecursiveMode::Recursive)] *)
Definition watcher_watch {E} (p : path) : M E bool :=
  fun w => if env_watch_ok env p then (ROk true, emit w (EvWatch p))
           else (ROk false, w).

(** [watch]; the new channel starts empty, its sender held by the watcher. *)
Definition watch (p : path) : M WatchError Watch :=
  if negb (ends_with p (b "Cargo.toml")) && negb (ends_with p (b "cargo.toml"))
  then throw InvalidPath else
  let manifest_path_str := display p in
  o <- cargo_metadata manifest_path_str ;;
  match o with
  | None => throw WatchIo
  | Some output =>
      if negb (status_success output)
      then throw (ExitStatusUnsuccessful (status_code output) (stderr output)) else
      match env_parse_json env (stdout output) with
      | None => throw WatchJson
      | Some json =>
          match read_json manifest_path_str json with
          | None => throw NoDylibTarget
          | Some (target_dir, src_root_path, name) =>
              src_dir_path <- expect (parent src_root_path) ;;
              ok <- recommended_watcher ;;
              if negb ok then throw WatchNotify else
              ok' <- watcher_watch src_dir_path ;;
              if negb ok' then throw WatchNotify else
              ret {| package_info :=
                       {| manifest_path := p; src_path := src_dir_path;
                          pi_lib_name := name; pi_target_dir_path := target_dir |};
                     event_rx := {| queue := []; disconnected := false |} |}
          end
      end
  end.

End Program.

(** ** The rest of the API *)

(** [String::from_utf8_lossy]: the well-formed sequences are kept, and
    each maximal prefix of an ill-formed one ([Utf8Chunks]: a lead byte
    and the continuation bytes it accepts before failing, or the end of
    the input) becomes one U+FFFD. *)
Definition REPLACEMENT : bytes := [239; 191; 189].

(** The second byte a three- or four-byte lead byte accepts. *)
Definition second_ok3 (x c1 : Z) : bool :=
  if x =? 224 then (160 <=? c1) && (c1 <=? 191)
  else if x =? 237 then (128 <=? c1) && (c1 <=? 159)
  else cont c1.

Definition second_ok4 (x c1 : Z) : bool :=
  if x =? 240 then (144 <=? c1) && (c1 <=? 191)
  else if x =? 244 then (128 <=? c1) && (c1 <=? 143)
  else cont c1.

Fixpoint from_utf8_lossy (s : bytes) : bytes :=
  match s with
  | [] => []
  | x :: rest =>
      if x <? 128 then x :: from_utf8_lossy rest
      else if (194 <=? x) && (x <=? 223) then
        match rest with
        | c1 :: r1 =>
            if cont c1 then x :: c1 :: from_utf8_lossy r1
            else REPLACEMENT ++ from_utf8_lossy rest
        | [] => REPLACEMENT
        end
      else if (224 <=? x) && (x <=? 239) then
        match rest with
        | c1 :: r1 =>
            if second_ok3 x c1 then
              match r1 with
              | c2 :: r2 =>
                  if cont c2 then x :: c1 :: c2 :: from_utf8_lossy r2
                  else REPLACEMENT ++ from_utf8_lossy r1
              | [] => REPLACEMENT
              end
            else REPLACEMENT ++ from_utf8_lossy rest
        | [] => REPLACEMENT
        end
      else if (240 <=? x) && (x <=? 244) then
        match rest with
        | c1 :: r1 =>
            if second_ok4 x c1 then
              match r1 with
              | c2 :: r2 =>
                  if cont c2 then
                    match r2 with
                    | c3 :: r3 =>
                        if cont c3 then x :: c1 :: c2 :: c3 :: from_utf8_lossy r3
                        else REPLACEMENT ++ from_utf8_lossy r2
                    | [] => REPLACEMENT
                    end
                  else REPLACEMENT ++ from_utf8_lossy r1
              | [] => REPLACEMENT
              end
            else REPLACEMENT ++ from_utf8_lossy rest
        | [] => REPLACEMENT
        end
      else REPLACEMENT ++ from_utf8_lossy rest
  end.

(** [ExitStatusUnsuccessfulError] *)
Record ExitStatusUnsuccessfulError := { eu_code : option Z; eu_stderr : bytes }.

(** [ExitStatusUnsuccessfulError::from_output] *)
Definition from_output (output : Output) : option ExitStatusUnsuccessfulError :=
  if negb (status_success output) then
    Some {| eu_code := status_code output; eu_stderr := from_utf8_lossy (stderr output) |}
  else None.



(** The [for event in self.event_rx.try_iter()] loop of [Watch::try_next]:
    it takes the queued messages without waiting and stops when there is
    none, whether or not the senders are gone. *)
Fixpoint try_next_loop (info : PackageInfo) (q : list ChannelMessage) (disc : bool)
  : result (option Package) NextError * Channel :=
  match q with
  | [] => (Ok None, {| queue := []; disconnected := disc |})
  | msg :: rest =>
      match msg with
      | Err e => (Err (NextNotify e), {| queue := rest; disconnected := disc |})
      | Ok event =>
          match check_raw_event event with
          | Err e => (Err e, {| queue := rest; disconnected := disc |})
          | Ok true => (Ok (Some info), {| queue := rest; disconnected := disc |})
          | Ok false => try_next_loop info rest disc
          end
      end
  end.

(** [Watch::try_next] *)
Definition try_next (w : Watch) : result (option Package) NextError * Channel :=
  try_next_loop (package_info w) (queue (event_rx w)) (disconnected (event_rx w)).

(** [TempLibrary::lib]: [.expect(..)] on the slot. *)
Definition temp_library_lib {E} (h : TempLibrary) : M E Library := expect (tl_lib h).

(** [libloading::Error], kept abstract. *)
Definition LibloadingError := unit.

Section Api.

Variable env : Env.

(** [Build::load_in_place] *)
Definition load_in_place (bd : Build) : M LibloadingError Library :=
  dylib_path <- expect (build_dylib_path env bd) ;;
  l <- library_new env dylib_path ;;
  match l with Some lib => ret lib | None => throw tt end.

End Api.

(** * Proofs *)

(** ** Helpers for the calendar: the inverse of [civil]

    [cum m] is the number of days of the March-based year before month [m]
    (1 = March); [days_from_civil] maps a date back to days since
    2000-03-01. *)
Definition cum (m : Z) : Z := fold_left Z.add (firstn (Z.to_nat (m - 1)) months) 0.

Definition days_from_civil (year mon mday : Z) : Z :=
  let y := if mon <=? 2 then year - 2001 else year - 2000 in
  let m := if mon <=? 2 then mon + 10 else mon - 2 in
  365 * y + y / 4 - y / 100 + y / 400 + cum m + mday - 1.

(** The slug of a formatted timestamp, given its fields. *)
Definition rfc_slug (year mon mday sod nanos : Z) : bytes :=
  [digit (year / 1000); digit (year / 100 mod 10); digit (year / 10 mod 10);
   digit (year mod 10); 45; digit (mon / 10); digit (mon mod 10); 45;
   digit (mday / 10); digit (mday mod 10); 116;
   digit (sod / 3600 / 10); digit (sod / 3600 mod 10); 45;
   digit (sod / 60 / 10 mod 6); digit (sod / 60 mod 10); 45;
   digit (sod / 10 mod 6); digit (sod mod 10)] ++
  (if nanos =? 0 then [122]
   else [45; digit (nanos / 100000000); digit (nanos / 10000000 mod 10);
         digit (nanos / 1000000 mod 10); digit (nanos / 100000 mod 10);
         digit (nanos / 10000 mod 10); digit (nanos / 1000 mod 10);
         digit (nanos / 100 mod 10); digit (nanos / 10 mod 10);
         digit (nanos mod 10); 122]).

(** ** Helpers for paths and effects *)

(** The byte classes of a Rust crate name: [rustc] accepts only ASCII
    letters, digits and ['_'] in [--crate-name], so the [lib_name] of every
    [Build] (the name of a dylib target cargo has just built) is one. *)
Definition is_crate_name (s : bytes) : bool :=
  forallb (fun c => ((48 <=? c) && (c <=? 57)) || ((65 <=? c) && (c <=? 90))
                    || ((97 <=? c) && (c <=? 122)) || (c =? 95)) s.

(** [m] changes no file other than [p]. *)
Definition frames {E A} (m : M E A) (p : path) : Prop :=
  forall w q, q <> p -> w_fs (snd (m w)) q = w_fs w q.

(** No target of any package of a [cargo metadata] output has the
    ["dylib"] kind. *)
Definition no_dylib_target (j : Json) : bool :=
  match obind (get j (b "packages")) as_array with
  | None => true
  | Some pkgs =>
      forallb (fun pkg =>
        match obind (get pkg (b "targets")) as_array with
        | None => true
        | Some targets =>
            forallb (fun target =>
              match obind (get target (b "kind")) as_array with
              | Some k => negb (has_dylib_kind k)
              | None => true
              end) targets
        end) pkgs
  end.

(** The bytes of a slug: lower-case ASCII letters, digits and ['-']. *)
Definition slug_char (c : Z) : bool :=
  ((97 <=? c) && (c <=? 122)) || ((48 <=? c) && (c <=? 57)) || (c =? 45).

Fixpoint no_double_dash (v : bytes) : bool :=
  match v with
  | x :: ((y :: _) as r) => negb ((x =? 45) && (y =? 45)) && no_double_dash r
  | _ => true
  end.

(** A slug: slug bytes only, no ['-'] at either end, no two ['-'] in a
    row. *)
Definition is_slug (v : bytes) : bool :=
  forallb slug_char v && negb (hd 0 v =? 45) && negb (last v 0 =? 45) && no_double_dash v.

(** A stretch of the trace with no directory creation and no copy. *)
Definition copies_nothing (tr : list Event) : bool :=
  forallb (fun e => match e with EvCopy _ _ | EvCreateDirAll _ => false | _ => true end) tr.

(** ** Sample configurations

    A machine on which every file operation succeeds, with the given
    platform, [install_name_tool] behaviour and parse of the
    [cargo metadata] output; a world holding one built library [[1; 2; 3]]
    under its Linux and its macOS file names. *)
Definition sample_env (os : Platform)
  (tool : option bytes -> option (Output * option bytes)) (json : option Json) : Env :=
  {| env_os := os; env_temp_root := path_of_str (b "/tmp");
     env_created := fun _ => Some (mkTime 1518568087 123456789);
     env_create_dir_all_ok := fun _ => true; env_copy_ok := fun _ _ => true;
     env_write_ok := fun _ => true; env_install_name_tool := tool;
     env_loader_accepts := fun _ => true;
     env_cargo_metadata := fun _ =>
       Some {| status_success := true; status_code := Some 0; stdout := []; stderr := [] |};
     env_parse_json := fun _ => json; env_watcher_ok := true; env_watch_ok := fun _ => true |}.

Definition sample_dylib : path := path_of_str (b "/proj/target/release/libfoo.so").

Definition sample_dylib_macos : path := path_of_str (b "/proj/target/release/libfoo.dylib").

Definition sample_world : World :=
  {| w_fs := fun q => if path_eqb q sample_dylib then Some [1; 2; 3]
                      else if path_eqb q sample_dylib_macos then Some [1; 2; 3] else None;
     w_next_lib := 0; w_trace := [] |}.

Definition sample_build (ts : SystemTime) : Build :=
  {| lib_name := b "foo"; target_dir_path := path_of_str (b "/proj/target"); timestamp := ts |}.

(** An [install_name_tool] that starts, succeeds and rewrites the library
    [[1; 2; 3]] in place (here to [[1; 2; 4]]), leaving other contents as
    they are. *)
Definition sample_fixup (c : option bytes) : option (Output * option bytes) :=
  Some ({| status_success := true; status_code := Some 0; stdout := []; stderr := [] |},
        match c with
        | Some c' => if bytes_eqb c' [1; 2; 3] then Some [1; 2; 4] else Some c'
        | None => None
        end).

(** An [install_name_tool] that starts, exits with status 1 and prints a
    byte that is not UTF-8 on stderr, leaving the file alone. *)
Definition sample_failing_tool (c : option bytes) : option (Output * option bytes) :=
  Some ({| status_success := false; status_code := Some 1; stdout := []; stderr := [255] |}, c).

(** [cargo metadata] output for a package [/proj/Cargo.toml] whose only
    target is an [rlib]. *)
Definition sample_metadata_no_dylib : Json :=
  JObject [(b "packages",
            JArray [JObject [(b "manifest_path", JString (b "/proj/Cargo.toml"));
                             (b "targets",
                              JArray [JObject [(b "kind", JArray [JString (b "rlib")]);
                                               (b "name", JString (b "foo"));
                                               (b "src_path", JString (b "/proj/src/lib.rs"))]])]]);
           (b "target_directory", JString (b "/proj/target"))].

(** [cargo metadata] output for a package [/proj/Cargo.toml] with an
    [rlib] target and then a [dylib] target [foo]. *)
Definition sample_metadata_dylib : Json :=
  JObject [(b "packages",
            JArray [JObject [(b "manifest_path", JString (b "/other/Cargo.toml"))];
                    JObject [(b "manifest_path", JString (b "/proj/Cargo.toml"));
                             (b "targets",
                              JArray [JObject [(b "kind", JArray [JString (b "rlib")]);
                                               (b "name", JString (b "bar"))];
                                      JObject [(b "kind", JArray [JString (b "rlib");
                                                                  JString (b "dylib")]);
                                               (b "name", JString (b "foo"));
                                               (b "src_path", JString (b "/proj/src/lib.rs"))]])]]);
           (b "target_directory", JString (b "/proj/target"))].

(** The temporary path of [sample_build ts] under [env]. *)
Definition sample_tmp_path (env : Env) (ts : SystemTime) : path :=
  match build_tmp_dylib_path env (sample_build ts) with Some p => p | None => [] end.

(** ** The temp file name: timestamps are never confused *)

Lemma month_loop_spec rd : 0 <= rd <= 365 ->
  let '(m, rd') := month_loop months 0 rd in
  1 <= m <= 12 /\ 0 <= rd' < 31 /\ rd = cum m + rd' /\ (11 <= m -> 306 <= rd).
Proof.
  intros H. unfold months; cbn [month_loop].
  repeat match goal with
  | |- context [if ?a <? ?c then _ else _] => destruct (Z.ltb_spec a c)
  end; repeat match goal with |- context [cum ?m] => let v := eval vm_compute in (cum m) in change (cum m) with v end; lia.
Qed.

Ltac quot_facts a k :=
  pose proof (Z.quot_rem' a k); pose proof (Z.rem_bound_abs a k ltac:(lia)).

Ltac quot_facts_pos a k :=
  pose proof (Z.quot_rem' a k); pose proof (Z.rem_bound_pos a k ltac:(lia) ltac:(lia)).

Lemma civil_spec d : - LEAPOCH <= d < 2921880 ->
  let '(y, m, md) := civil d in
  0 <= y <= 9999 /\ 1 <= m <= 12 /\ 1 <= md <= 31 /\ days_from_civil y m md = d.
Proof.
  intros Hd. unfold LEAPOCH in Hd.
  unfold civil, DAYS_PER_400Y, DAYS_PER_100Y, DAYS_PER_4Y.
  change (365 * 400 + 97) with 146097. change (365 * 100 + 24) with 36524.
  change (365 * 4 + 1) with 1461.
  quot_facts d 146097.
  set (qc0 := Z.quot d 146097) in *. set (r0 := Z.rem d 146097) in *.
  clearbody qc0 r0.
  assert (exists qc r1, -1 <= qc <= 19 /\ 0 <= r1 < 146097 /\ d = 146097 * qc + r1 /\
     (if r0 <? 0 then (qc0 - 1, r0 + 146097) else (qc0, r0)) = (qc, r1)) as (qc & r1 & Hqc & Hr1 & Hd1 & ->).
  { destruct (Z.ltb_spec r0 0); [exists (qc0 - 1), (r0 + 146097) | exists qc0, r0];
    (split; [lia|split; [lia|split; [lia|reflexivity]]]). }
  cbv zeta iota beta.
  quot_facts_pos r1 36524.
  set (c0 := Z.quot r1 36524) in *. set (s0 := Z.rem r1 36524) in *. clearbody c0 s0.
  assert (exists c, 0 <= c <= 3 /\ 0 <= r1 - c * 36524 <= 36524 /\
    (if c0 =? 4 then c0 - 1 else c0) = c) as (c & Hc & Hr2 & ->).
  { destruct (Z.eqb_spec c0 4); [exists (c0 - 1) | exists c0]; (split; [lia|split; [lia|reflexivity]]). }
  remember (r1 - c * 36524) as r2 eqn:Er2.
  quot_facts_pos r2 1461.
  set (q0 := Z.quot r2 1461) in *. set (s1 := Z.rem r2 1461) in *. clearbody q0 s1.
  assert (exists q, 0 <= q <= 24 /\ 0 <= r2 - q * 1461 <= 1460 /\
    (if q0 =? 25 then q0 - 1 else q0) = q) as (q & Hq & Hr3 & ->).
  { destruct (Z.eqb_spec q0 25); [exists (q0 - 1) | exists q0]; (split; [lia|split; [lia|reflexivity]]). }
  remember (r2 - q * 1461) as r3 eqn:Er3.
  quot_facts_pos r3 365.
  set (y0 := Z.quot r3 365) in *. set (s2 := Z.rem r3 365) in *. clearbody y0 s2.
  assert (exists r, 0 <= r <= 3 /\ 0 <= r3 - r * 365 <= 365 /\
    (if y0 =? 4 then y0 - 1 else y0) = r) as (r & Hr & Hr4 & ->).
  { destruct (Z.eqb_spec y0 4); [exists (y0 - 1) | exists y0]; (split; [lia|split; [lia|reflexivity]]). }
  remember (r3 - r * 365) as r4 eqn:Er4.
  pose proof (month_loop_spec r4 Hr4) as HM.
  destruct (month_loop months 0 r4) as [mon r5].
  destruct HM as (Hmon & Hr5 & Hcum & H306).
  assert (E4 : (r + 4 * q + 100 * c + 400 * qc) / 4 = 100 * qc + 25 * c + q)
    by (symmetry; apply Z.div_unique with r; lia).
  assert (E100 : (r + 4 * q + 100 * c + 400 * qc) / 100 = 4 * qc + c)
    by (symmetry; apply Z.div_unique with (r + 4 * q); lia).
  assert (E400 : (r + 4 * q + 100 * c + 400 * qc) / 400 = qc)
    by (symmetry; apply Z.div_unique with (r + 4 * q + 100 * c); lia).
  unfold days_from_civil.
  destruct (Z.ltb_spec 12 (mon + 2)).
  - destruct (Z.leb_spec (mon - 10) 2); [|lia].
    replace (2000 + r + 4 * q + 100 * c + 400 * qc + 1 - 2001)
      with (r + 4 * q + 100 * c + 400 * qc) by lia.
    replace (mon - 10 + 10) with mon by lia.
    rewrite E4, E100, E400. repeat split; try lia.
  - destruct (Z.leb_spec (mon + 2) 2); [lia|].
    replace (2000 + r + 4 * q + 100 * c + 400 * qc - 2000)
      with (r + 4 * q + 100 * c + 400 * qc) by lia.
    replace (mon + 2 - 2) with mon by lia.
    rewrite E4, E100, E400. repeat split; try lia.
Qed.

Lemma dm_eq x y k : 0 < k -> x / k = y / k -> x mod k = y mod k -> x = y.
Proof. intros Hk H1 H2. rewrite (Z.div_mod x k), (Z.div_mod y k) by lia. congruence. Qed.

Lemma dd_eq x y k m km : 0 < k -> 0 < m -> km = k * m ->
  x / km = y / km -> x / k mod m = y / k mod m -> x / k = y / k.
Proof.
  intros Hk Hm -> H1 H2. apply (dm_eq _ _ m); [lia| |exact H2].
  rewrite !Z.div_div by lia. exact H1.
Qed.

Lemma nanos_digits_inj n1 n2 :
  n1 / 100000000 = n2 / 100000000 -> n1 / 10000000 mod 10 = n2 / 10000000 mod 10 ->
  n1 / 1000000 mod 10 = n2 / 1000000 mod 10 -> n1 / 100000 mod 10 = n2 / 100000 mod 10 ->
  n1 / 10000 mod 10 = n2 / 10000 mod 10 -> n1 / 1000 mod 10 = n2 / 1000 mod 10 ->
  n1 / 100 mod 10 = n2 / 100 mod 10 -> n1 / 10 mod 10 = n2 / 10 mod 10 ->
  n1 mod 10 = n2 mod 10 -> n1 = n2.
Proof.
  intros H8 H7 H6 H5 H4 H3 H2 H1 H0.
  apply dd_eq with (m := 10) (km := 100000000) in H7; [|lia..].
  apply dd_eq with (m := 10) (km := 10000000) in H6; [|lia..].
  apply dd_eq with (m := 10) (km := 1000000) in H5; [|lia..].
  apply dd_eq with (m := 10) (km := 100000) in H4; [|lia..].
  apply dd_eq with (m := 10) (km := 10000) in H3; [|lia..].
  apply dd_eq with (m := 10) (km := 1000) in H2; [|lia..].
  apply dd_eq with (m := 10) (km := 100) in H1; [|lia..].
  exact (dm_eq _ _ 10 ltac:(lia) H1 H0).
Qed.

Lemma year_digits_inj y1 y2 :
  y1 / 1000 = y2 / 1000 -> y1 / 100 mod 10 = y2 / 100 mod 10 ->
  y1 / 10 mod 10 = y2 / 10 mod 10 -> y1 mod 10 = y2 mod 10 -> y1 = y2.
Proof.
  intros H3 H2 H1 H0.
  apply dd_eq with (m := 10) (km := 1000) in H2; [|lia..].
  apply dd_eq with (m := 10) (km := 100) in H1; [|lia..].
  exact (dm_eq _ _ 10 ltac:(lia) H1 H0).
Qed.

Lemma sod_digits_inj s1 s2 :
  s1 / 3600 / 10 = s2 / 3600 / 10 -> s1 / 3600 mod 10 = s2 / 3600 mod 10 ->
  s1 / 60 / 10 mod 6 = s2 / 60 / 10 mod 6 -> s1 / 60 mod 10 = s2 / 60 mod 10 ->
  s1 / 10 mod 6 = s2 / 10 mod 6 -> s1 mod 10 = s2 mod 10 -> s1 = s2.
Proof.
  intros H5 H4 H3 H2 H1 H0.
  assert (E3600 : s1 / 3600 = s2 / 3600) by exact (dm_eq _ _ 10 ltac:(lia) H5 H4).
  assert (E600 : s1 / 60 / 10 = s2 / 60 / 10).
  { apply (dm_eq _ _ 6); [lia| |exact H3]. rewrite !Z.div_div by lia. exact E3600. }
  assert (E60 : s1 / 60 = s2 / 60) by exact (dm_eq _ _ 10 ltac:(lia) E600 H2).
  assert (E10 : s1 / 10 = s2 / 10).
  { apply (dm_eq _ _ 6); [lia| |exact H1]. rewrite !Z.div_div by lia. exact E60. }
  exact (dm_eq _ _ 10 ltac:(lia) E10 H0).
Qed.

Lemma digit_small x : 0 <= x < 10 -> digit x = 48 + x.
Proof.
  intros H. unfold digit. rewrite (Z.mod_small x 256) by lia.
  apply Z.mod_small. lia.
Qed.

Lemma digit_inj x y : 0 <= x < 10 -> 0 <= y < 10 -> digit x = digit y -> x = y.
Proof. intros Hx Hy. rewrite !digit_small by assumption. lia. Qed.

Lemma slug_go_digit p x r : 0 <= x < 10 ->
  slug_go p (digit x :: r) = digit x :: slug_go false r.
Proof.
  intros H. rewrite digit_small by exact H. cbn [slug_go].
  destruct (Z.leb_spec 97 (48 + x)); [lia|].
  destruct (Z.leb_spec 48 (48 + x)); [|lia].
  destruct (Z.leb_spec (48 + x) 57); [|lia]. reflexivity.
Qed.

Lemma civil_inj d1 d2 : - LEAPOCH <= d1 < 2921880 -> - LEAPOCH <= d2 < 2921880 ->
  civil d1 = civil d2 -> d1 = d2.
Proof.
  intros H1 H2 E. pose proof (civil_spec d1 H1) as S1. pose proof (civil_spec d2 H2) as S2.
  rewrite E in S1. destruct (civil d2) as [[y m] md].
  destruct S1 as (_ & _ & _ & <-). destruct S2 as (_ & _ & _ & <-). reflexivity.
Qed.

Ltac dig_range :=
  first
  [ match goal with |- 0 <= ?a mod ?k < 10 =>
      pose proof (Z.mod_pos_bound a k ltac:(lia)); lia end
  | match goal with |- 0 <= ?a / ?k / ?j < 10 => rewrite Z.div_div by lia end; dig_range
  | match goal with |- 0 <= ?a / ?k < 10 =>
      split; [apply Z.div_pos; lia | apply Z.div_lt_upper_bound; lia] end ].

Lemma slug_go_45 r : slug_go false (45 :: r) = 45 :: slug_go true r.
Proof. reflexivity. Qed.
Lemma slug_go_58 r : slug_go false (58 :: r) = 45 :: slug_go true r.
Proof. reflexivity. Qed.
Lemma slug_go_46 r : slug_go false (46 :: r) = 45 :: slug_go true r.
Proof. reflexivity. Qed.
Lemma slug_go_84 r : slug_go false (84 :: r) = 116 :: slug_go false r.
Proof. reflexivity. Qed.
Lemma slug_go_90 r : slug_go false (90 :: r) = 122 :: slug_go false r.
Proof. reflexivity. Qed.

Lemma slugify_ends_z s v : slug_go true s = v -> hd_error (rev v) = Some 122 ->
  slugify s = v.
Proof.
  intros H Hl. unfold slugify. rewrite H.
  destruct (rev v) as [|x r]; [discriminate|]. injection Hl as ->. reflexivity.
Qed.

Lemma format_rfc3339_slug t : 0 <= st_secs t < 253402300800 -> SystemTime_wf t ->
  exists year mon mday rfc,
    civil (st_secs t / 86400 - LEAPOCH) = (year, mon, mday) /\
    format_rfc3339 t = Some rfc /\
    slugify rfc = rfc_slug year mon mday (st_secs t mod 86400) (st_nanos t).
Proof.
  intros Hs Hn. destruct t as [secs nanos]; unfold SystemTime_wf in Hn; cbn in *.
  pose proof (civil_spec (secs / 86400 - LEAPOCH)) as HC.
  destruct (civil (secs / 86400 - LEAPOCH)) as [[year mon] mday] eqn:Ec.
  destruct HC as (Hy & Hm & Hmd & _).
  { unfold LEAPOCH. split.
    - assert (0 <= secs / 86400) by (apply Z.div_pos; lia). lia.
    - assert (secs / 86400 < 2932897) by (apply Z.div_lt_upper_bound; lia). lia. }
  pose proof (Z.mod_pos_bound secs 86400 ltac:(lia)) as Hsod.
  set (sod := secs mod 86400) in *.
  unfold format_rfc3339; cbn [st_secs st_nanos].
  destruct (Z.ltb_spec secs 0); [lia|]. destruct (Z.leb_spec 253402300800 secs); [lia|].
  rewrite Ec. fold sod.
  exists year, mon, mday.
  unfold rfc_slug.
  destruct (Z.eqb_spec nanos 0).
  - eexists; split; [reflexivity|split; [reflexivity|]].
    apply slugify_ends_z; cbn [app].
    + repeat first [ rewrite slug_go_digit by dig_range | rewrite slug_go_45
                   | rewrite slug_go_58 | rewrite slug_go_46 | rewrite slug_go_84
                   | rewrite slug_go_90 ].
      reflexivity.
    + reflexivity.
  - eexists; split; [reflexivity|split; [reflexivity|]].
    apply slugify_ends_z; cbn [app].
    + repeat first [ rewrite slug_go_digit by dig_range | rewrite slug_go_45
                   | rewrite slug_go_58 | rewrite slug_go_46 | rewrite slug_go_84
                   | rewrite slug_go_90 ].
      reflexivity.
    + reflexivity.
Qed.

Lemma rfc_slug_inj y1 m1 d1 s1 n1 y2 m2 d2 s2 n2 :
  0 <= y1 <= 9999 -> 1 <= m1 <= 12 -> 1 <= d1 <= 31 -> 0 <= s1 < 86400 ->
  0 <= n1 < 1000000000 ->
  0 <= y2 <= 9999 -> 1 <= m2 <= 12 -> 1 <= d2 <= 31 -> 0 <= s2 < 86400 ->
  0 <= n2 < 1000000000 ->
  rfc_slug y1 m1 d1 s1 n1 = rfc_slug y2 m2 d2 s2 n2 ->
  y1 = y2 /\ m1 = m2 /\ d1 = d2 /\ s1 = s2 /\ n1 = n2.
Proof.
  intros Hy1 Hm1 Hd1 Hs1 Hn1 Hy2 Hm2 Hd2 Hs2 Hn2 H. unfold rfc_slug in H.
  destruct (Z.eqb_spec n1 0), (Z.eqb_spec n2 0); cbn [app] in H;
    try (apply (f_equal (@length Z)) in H; discriminate H);
    injection H; intros;
    repeat match goal with
    | E : digit ?a = digit ?c |- _ =>
        apply digit_inj in E; [|dig_range|dig_range]
    end;
    (split; [apply year_digits_inj; assumption|]);
    (split; [apply (dm_eq _ _ 10); [lia|assumption..]|]);
    (split; [apply (dm_eq _ _ 10); [lia|assumption..]|]);
    (split; [apply sod_digits_inj; assumption|]);
    try lia; apply nanos_digits_inj; assumption.
Qed.

Lemma format_rfc3339_range t rfc : format_rfc3339 t = Some rfc ->
  0 <= st_secs t < 253402300800.
Proof.
  unfold format_rfc3339. destruct (Z.ltb_spec (st_secs t) 0); [discriminate|].
  destruct (Z.leb_spec 253402300800 (st_secs t)); [discriminate|]. lia.
Qed.

Lemma days_range s : 0 <= s < 253402300800 ->
  - LEAPOCH <= s / 86400 - LEAPOCH < 2921880.
Proof.
  intros H. unfold LEAPOCH.
  assert (0 <= s / 86400) by (apply Z.div_pos; lia).
  assert (s / 86400 < 2932897) by (apply Z.div_lt_upper_bound; lia).
  lia.
Qed.

Lemma format_slug_inj t1 t2 rfc1 rfc2 : SystemTime_wf t1 -> SystemTime_wf t2 ->
  format_rfc3339 t1 = Some rfc1 -> format_rfc3339 t2 = Some rfc2 ->
  slugify rfc1 = slugify rfc2 -> t1 = t2.
Proof.
  intros W1 W2 F1 F2 E.
  pose proof (format_rfc3339_range _ _ F1) as R1.
  pose proof (format_rfc3339_range _ _ F2) as R2.
  destruct (format_rfc3339_slug t1 R1 W1) as (y1 & m1 & d1 & r1 & C1 & F1' & S1).
  destruct (format_rfc3339_slug t2 R2 W2) as (y2 & m2 & d2 & r2 & C2 & F2' & S2).
  rewrite F1 in F1'; injection F1' as <-. rewrite F2 in F2'; injection F2' as <-.
  pose proof (civil_spec _ (days_range _ R1)) as B1.
  pose proof (civil_spec _ (days_range _ R2)) as B2.
  rewrite C1 in B1. rewrite C2 in B2.
  destruct B1 as (Hy1 & Hm1 & Hd1 & D1). destruct B2 as (Hy2 & Hm2 & Hd2 & D2).
  pose proof (Z.mod_pos_bound (st_secs t1) 86400 ltac:(lia)).
  pose proof (Z.mod_pos_bound (st_secs t2) 86400 ltac:(lia)).
  unfold SystemTime_wf in W1, W2.
  rewrite S1, S2 in E.
  apply rfc_slug_inj in E; try assumption.
  destruct E as (<- & <- & <- & Es & En).
  assert (Ed : st_secs t1 / 86400 = st_secs t2 / 86400) by lia.
  destruct t1 as [s1 n1], t2 as [s2 n2]; cbn in *.
  f_equal; [apply (dm_eq _ _ 86400); [lia|assumption..] | assumption].
Qed.

Lemma slug_go_no_dot p s : ~ In 46 (slug_go p s).
Proof.
  revert p; induction s as [|x s IH]; intros p; cbn [slug_go]; [simpl; tauto|].
  destruct (((97 <=? x) && (x <=? 122)) || ((48 <=? x) && (x <=? 57))) eqn:E1.
  - intros [H|H]; [|exact (IH _ H)]. subst x.
    apply orb_true_iff in E1; destruct E1 as [E|E]; apply andb_true_iff in E;
      destruct E as [E E']; apply Z.leb_le in E; lia.
  - destruct ((65 <=? x) && (x <=? 90)) eqn:E2.
    + intros [H|H]; [|exact (IH _ H)].
      apply andb_true_iff in E2; destruct E2 as [E E']; apply Z.leb_le in E; lia.
    + destruct p; [exact (IH _)|].
      intros [H|H]; [discriminate H|exact (IH _ H)].
Qed.

Lemma slugify_cases s : slugify s = slug_go true s \/
  exists r, rev (slug_go true s) = 45 :: r /\ slugify s = rev r.
Proof.
  unfold slugify. destruct (rev (slug_go true s)) as [|z r] eqn:E; [left; reflexivity|].
  destruct (Z.eq_dec z 45) as [->|Hne]; [right; exists r; split; reflexivity|left].
  destruct z as [|p|p]; try reflexivity;
    repeat (destruct p as [p|p|]; try reflexivity); exfalso; apply Hne; reflexivity.
Qed.

Lemma slugify_no_dot s : ~ In 46 (slugify s).
Proof.
  pose proof (slug_go_no_dot true s) as H.
  destruct (slugify_cases s) as [->|[r [E ->]]]; [exact H|].
  intros Hin. apply H. apply in_rev. rewrite E. right. apply in_rev. exact Hin.
Qed.

Lemma last_dot_split_none f : ~ In 46 f -> last_dot_split f = None.
Proof.
  induction f as [|x f IH]; intros H; [reflexivity|]. cbn [last_dot_split].
  rewrite IH by (intros Hin; apply H; right; exact Hin).
  destruct (Z.eqb_spec x 46); [subst; exfalso; apply H; left; reflexivity|reflexivity].
Qed.

Lemma file_stem_of_no_dot f : ~ In 46 f -> file_stem_of f = f.
Proof.
  intros H. unfold file_stem_of, bytes_eqb.
  destruct (list_eq_dec Z.eq_dec f [46; 46]) as [->|_].
  - exfalso. apply H. left. reflexivity.
  - rewrite last_dot_split_none by exact H. reflexivity.
Qed.

Lemma with_extension_no_dot p f ext : ~ In 46 f -> ext <> [] ->
  with_extension (p ++ [f]) ext = p ++ [f ++ 46 :: ext].
Proof.
  intros H He. unfold with_extension. rewrite rev_app_distr. cbn [rev app].
  unfold bytes_eqb at 1.
  destruct (list_eq_dec Z.eq_dec f [46; 46]) as [->|_].
  - exfalso. apply H. left. reflexivity.
  - rewrite rev_involutive, file_stem_of_no_dot by exact H.
    destruct ext; [contradiction|reflexivity].
Qed.

Lemma crate_name_no_dot s : is_crate_name s = true -> ~ In 46 s.
Proof.
  unfold is_crate_name. rewrite forallb_forall. intros H Hin.
  specialize (H 46 Hin). discriminate H.
Qed.

Lemma file_stem_no_dot os name : ~ In 46 name -> ~ In 46 (file_stem os name).
Proof.
  intros H. destruct os; cbn [file_stem]; try exact H;
    intros Hin; apply in_app_or in Hin; destruct Hin as [Hin|Hin];
    [cbn in Hin; lia| exact (H Hin)|cbn in Hin; lia| exact (H Hin)
    |cbn in Hin; lia| exact (H Hin)|cbn in Hin; lia| exact (H Hin)].
Qed.

Lemma tmp_dylib_path_shape os root name ts rfc ext :
  ~ In 46 name -> format_rfc3339 ts = Some rfc -> dylib_ext os = Some ext ->
  tmp_dylib_path os root name ts =
    Some (tmp_dir root ++ [file_stem os name ++ 45 :: slugify rfc ++ 46 :: ext]).
Proof.
  intros Hn Hf He. unfold tmp_dylib_path, tmp_file_stem. rewrite Hf, He.
  unfold join at 1. rewrite with_extension_no_dot.
  - rewrite <- app_assoc. reflexivity.
  - intros Hin. apply in_app_or in Hin. destruct Hin as [Hin|[Hin|Hin]].
    + exact (file_stem_no_dot os name Hn Hin).
    + discriminate Hin.
    + exact (slugify_no_dot rfc Hin).
  - destruct os; cbn in He; try discriminate He; injection He as <-; discriminate.
Qed.

Lemma tmp_dylib_path_inj os root name ts1 ts2 p1 p2 :
  is_crate_name name = true -> SystemTime_wf ts1 -> SystemTime_wf ts2 ->
  tmp_dylib_path os root name ts1 = Some p1 ->
  tmp_dylib_path os root name ts2 = Some p2 -> p1 = p2 -> ts1 = ts2.
Proof.
  intros Hn W1 W2 E1 E2 ->.
  pose proof (crate_name_no_dot name Hn) as Hd.
  destruct (format_rfc3339 ts1) as [rfc1|] eqn:F1;
    [|unfold tmp_dylib_path, tmp_file_stem in E1; rewrite F1 in E1; discriminate E1].
  destruct (format_rfc3339 ts2) as [rfc2|] eqn:F2;
    [|unfold tmp_dylib_path, tmp_file_stem in E2; rewrite F2 in E2; discriminate E2].
  destruct (dylib_ext os) as [ext|] eqn:X;
    [|unfold tmp_dylib_path, tmp_file_stem in E1; rewrite F1, X in E1; discriminate E1].
  rewrite (tmp_dylib_path_shape os root name ts1 rfc1 ext Hd F1 X) in E1.
  rewrite (tmp_dylib_path_shape os root name ts2 rfc2 ext Hd F2 X) in E2.
  rewrite <- E1 in E2. clear E1. injection E2 as E.
  apply app_inv_head in E. injection E as E.
  apply app_inv_head in E. injection E as E.
  apply app_inv_tail in E.
  exact (format_slug_inj ts1 ts2 rfc1 rfc2 W1 W2 F1 F2 (eq_sym E)).
Qed.

Lemma set_file_other w p v q : q <> p -> w_fs (set_file w p v) q = w_fs w q.
Proof.
  intros H. cbn. unfold path_eqb.
  destruct (list_eq_dec (list_eq_dec Z.eq_dec) q p); [contradiction|reflexivity].
Qed.

Lemma frames_ret {E A} (a : A) p : frames (E := E) (ret a) p.
Proof. intros w q _. reflexivity. Qed.

Lemma frames_throw {E A} (e : E) p : frames (A := A) (throw e) p.
Proof. intros w q _. reflexivity. Qed.

Lemma frames_panic {E A} p : frames (E := E) (A := A) panic p.
Proof. intros w q _. reflexivity. Qed.

Lemma frames_expect {E A} (o : option A) p : frames (E := E) (expect o) p.
Proof. destruct o; intros w q _; reflexivity. Qed.

Lemma frames_bind {E A B} (m : M E A) (k : A -> M E B) p :
  frames m p -> (forall a, frames (k a) p) -> frames (bind m k) p.
Proof.
  intros Hm Hk w q Hq. unfold bind.
  specialize (Hm w q Hq). destruct (m w) as [[a|e| |] w'] eqn:Hmw; cbn in Hm |- *;
    try exact Hm.
  rewrite Hk by exact Hq. exact Hm.
Qed.

Lemma frames_loop {E A} n (body : M E (option A)) p :
  frames body p -> frames (loop n body) p.
Proof.
  intros Hb. induction n as [|n IH]; [intros w q _; reflexivity|].
  cbn [loop]. apply frames_bind; [exact Hb|].
  intros [a|]; [apply frames_ret|exact IH].
Qed.

Create HintDb frames.
#[local] Hint Resolve frames_ret frames_throw frames_panic frames_expect : frames.

Lemma frames_path_exists E q p : frames (E := E) (path_exists q) p.
Proof. intros w r _. reflexivity. Qed.

Lemma frames_create_dir_all env E d p : frames (E := E) (create_dir_all env d) p.
Proof. intros w r _. unfold create_dir_all. destruct env_create_dir_all_ok; reflexivity. Qed.

Lemma frames_fs_copy env E src p : frames (E := E) (fs_copy env src p) p.
Proof.
  intros w r Hr. unfold fs_copy.
  destruct (w_fs w src); [|reflexivity]. destruct env_copy_ok; [|reflexivity].
  apply set_file_other. exact Hr.
Qed.

Lemma frames_run_install_name_tool env E dir p f :
  frames (E := E) (run_install_name_tool env dir p f) p.
Proof.
  intros w r Hr. unfold run_install_name_tool.
  destruct (env_install_name_tool env (w_fs w p)) as [[o c]|]; [|reflexivity].
  cbn [snd]. rewrite set_file_other by exact Hr. reflexivity.
Qed.

Lemma frames_library_new env E q p : frames (E := E) (library_new env q) p.
Proof.
  intros w r _. unfold library_new.
  destruct (w_fs w q); [destruct env_loader_accepts|]; reflexivity.
Qed.

#[local] Hint Resolve frames_path_exists frames_create_dir_all frames_fs_copy
  frames_run_install_name_tool frames_library_new : frames.

Lemma frames_build_load_body env bd d p dir :
  frames (build_load_body env bd d p dir) p.
Proof.
  unfold build_load_body. apply frames_bind; [auto with frames|].
  intros [|].
  - apply frames_bind.
    + destruct (is_macos env); [|auto with frames].
      apply frames_bind; [auto with frames|]. intros f.
      apply frames_bind; [auto with frames|]. intros [|]; auto with frames.
    + intros _. apply frames_bind; [auto with frames|]. intros [|]; auto with frames.
  - apply frames_bind; [auto with frames|]. intros [|]; cbn [negb]; [|auto with frames].
    apply frames_bind; [auto with frames|]. intros [|]; cbn [negb]; auto with frames.
Qed.

Lemma frames_build_load env fuel bd p :
  build_tmp_dylib_path env bd = Some p -> frames (build_load env fuel bd) p.
Proof.
  intros Hp. unfold build_load. apply frames_bind; [auto with frames|]. intros d.
  rewrite Hp. intros w q Hq. cbn [bind expect ret].
  revert w q Hq. apply frames_bind; [auto with frames|]. intros dir.
  apply frames_loop, frames_build_load_body.
Qed.

Lemma drop_frames h w q :
  q <> tl_path h -> w_fs (snd (drop_temp_library h w)) q = w_fs w q.
Proof.
  intros Hq. unfold drop_temp_library. cbn [tl_path].
  set (w1 := match tl_lib h with Some lib => emit w (EvUnload lib) | None => w end).
  assert (E1 : w_fs w1 = w_fs w) by (unfold w1; destruct (tl_lib h); reflexivity).
  unfold remove_file. destruct (w_fs w1 (tl_path h)); cbn [snd].
  - cbn. unfold path_eqb.
    destruct (list_eq_dec (list_eq_dec Z.eq_dec) q (tl_path h)); [contradiction|].
    rewrite E1. reflexivity.
  - cbn. rewrite E1. reflexivity.
Qed.

(** C1: for a crate name and two well-formed build timestamps that differ
    and can be formatted, on a platform with a dylib extension, the
    temporary paths of the two builds are
    [tmp_dir/<file_stem>-<slug of the RFC 3339 timestamp>.<ext>] and are
    distinct; loading either build (any number of loop iterations) leaves
    the other's file untouched, and dropping a handle on either path leaves
    the other's file untouched. *)
Theorem tmp_paths_distinct_isolated env name td1 td2 ts1 ts2 rfc1 rfc2 ext :
  is_crate_name name = true -> SystemTime_wf ts1 -> SystemTime_wf ts2 -> ts1 <> ts2 ->
  format_rfc3339 ts1 = Some rfc1 -> format_rfc3339 ts2 = Some rfc2 ->
  dylib_ext (env_os env) = Some ext ->
  let bd1 := {| lib_name := name; target_dir_path := td1; timestamp := ts1 |} in
  let bd2 := {| lib_name := name; target_dir_path := td2; timestamp := ts2 |} in
  let p1 := tmp_dir (env_temp_root env)
              ++ [file_stem (env_os env) name ++ 45 :: slugify rfc1 ++ 46 :: ext] in
  let p2 := tmp_dir (env_temp_root env)
              ++ [file_stem (env_os env) name ++ 45 :: slugify rfc2 ++ 46 :: ext] in
  build_tmp_dylib_path env bd1 = Some p1 /\ build_tmp_dylib_path env bd2 = Some p2 /\
  p1 <> p2 /\
  (forall fuel w, w_fs (snd (build_load env fuel bd2 w)) p1 = w_fs w p1) /\
  (forall fuel w, w_fs (snd (build_load env fuel bd1 w)) p2 = w_fs w p2) /\
  (forall h w, tl_path h = p1 -> w_fs (snd (drop_temp_library h w)) p2 = w_fs w p2) /\
  (forall h w, tl_path h = p2 -> w_fs (snd (drop_temp_library h w)) p1 = w_fs w p1).
Proof.
  intros Hn W1 W2 Hne F1 F2 X bd1 bd2 p1 p2.
  pose proof (crate_name_no_dot name Hn) as Hd.
  assert (E1 : build_tmp_dylib_path env bd1 = Some p1)
    by exact (tmp_dylib_path_shape _ _ _ _ _ _ Hd F1 X).
  assert (E2 : build_tmp_dylib_path env bd2 = Some p2)
    by exact (tmp_dylib_path_shape _ _ _ _ _ _ Hd F2 X).
  assert (D : p1 <> p2)
    by (intros Hp; exact (Hne (tmp_dylib_path_inj _ _ _ _ _ _ _ Hn W1 W2 E1 E2 Hp))).
  split; [exact E1|]. split; [exact E2|]. split; [exact D|].
  split; [intros fuel w; apply (frames_build_load env fuel bd2 p2 E2); exact D|].
  split; [intros fuel w; apply (frames_build_load env fuel bd1 p1 E1); intros H; exact (D (eq_sym H))|].
  split; intros h w Hh; apply drop_frames; rewrite Hh; [intros H; exact (D (eq_sym H))|exact D].
Qed.

Lemma tmp_paths_distinct_isolated_witness :
  is_crate_name (b "foo") = true /\
  exists p1 p2,
    build_tmp_dylib_path (sample_env Linux (fun _ => None) None)
      (sample_build (mkTime 1518568087 123456789)) = Some p1 /\
    build_tmp_dylib_path (sample_env Linux (fun _ => None) None)
      (sample_build (mkTime 1518568087 0)) = Some p2 /\
    p1 <> p2.
Proof.
  split; [reflexivity|].
  destruct (tmp_paths_distinct_isolated (sample_env Linux (fun _ => None) None) (b "foo")
              (path_of_str (b "/proj/target")) (path_of_str (b "/proj/target"))
              (mkTime 1518568087 123456789) (mkTime 1518568087 0)
              (b "2018-02-14T00:28:07.123456789Z") (b "2018-02-14T00:28:07Z")
              (b "so"))
    as (H1 & H2 & H3 & _);
    [reflexivity | unfold SystemTime_wf; cbn; lia | unfold SystemTime_wf; cbn; lia
    | intros H; injection H as H; discriminate H
    | vm_compute; reflexivity | vm_compute; reflexivity | reflexivity |].
  eexists; eexists. split; [exact H1|]. split; [exact H2|exact H3].
Defined.

Lemma path_eqb_refl p : path_eqb p p = true.
Proof. unfold path_eqb. destruct (list_eq_dec (list_eq_dec Z.eq_dec) p p); congruence. Qed.

(** C2: dropping a [TempLibrary] whose slot holds [l] first unloads [l]
    (the slot becomes empty), and only then removes the backing file, with
    whatever outcome; drop returns no error.  A second drop of the emptied
    handle unloads nothing: it only makes one more removal attempt, which
    fails silently. *)
Theorem drop_unload_then_remove h l w :
  tl_lib h = Some l ->
  let '(h1, w1) := drop_temp_library h w in
  let '(h2, w2) := drop_temp_library h1 w1 in
  tl_lib h1 = None /\ tl_path h1 = tl_path h /\
  (exists ok, w_trace w1 = w_trace w ++ [EvUnload l; EvRemoveFile (tl_path h) ok]) /\
  w_fs w1 (tl_path h) = None /\
  tl_lib h2 = None /\ tl_path h2 = tl_path h /\
  w_trace w2 = w_trace w1 ++ [EvRemoveFile (tl_path h) false].
Proof.
  intros Hl. unfold drop_temp_library, remove_file. rewrite Hl. cbn.
  destruct (w_fs w (tl_path h)) as [c|] eqn:Ef; cbn;
    rewrite ?path_eqb_refl, ?Ef; cbn; rewrite ?path_eqb_refl.
  all: split; [reflexivity|]; split; [reflexivity|].
  all: split; [eexists; rewrite <- app_assoc; reflexivity|].
  all: split; [reflexivity|split; [reflexivity|split; reflexivity]].
Qed.

Lemma drop_unload_then_remove_witness :
  let h := {| build_timestamp := mkTime 1518568087 0; tl_path := sample_dylib;
              tl_lib := Some 0%nat |} in
  let '(h1, w1) := drop_temp_library h sample_world in
  let '(h2, w2) := drop_temp_library h1 w1 in
  tl_lib h1 = None /\ tl_path h1 = tl_path h /\
  (exists ok, w_trace w1 = w_trace sample_world ++ [EvUnload 0%nat; EvRemoveFile (tl_path h) ok]) /\
  w_fs w1 (tl_path h) = None /\
  tl_lib h2 = None /\ tl_path h2 = tl_path h /\
  w_trace w2 = w_trace w1 ++ [EvRemoveFile (tl_path h) false].
Proof.
  intros h. exact (drop_unload_then_remove h 0%nat sample_world eq_refl).
Defined.

Lemma with_extension_nonnil p ext : p <> [] -> with_extension p ext <> [].
Proof.
  intros H. unfold with_extension.
  destruct (rev p) as [|f rdir] eqn:E; [exact H|].
  destruct (bytes_eqb f [46; 46]); [exact H|].
  intros H'. apply app_eq_nil in H'. destruct H' as [_ H']. discriminate H'.
Qed.

Lemma tmp_dylib_path_parent os root name ts p :
  tmp_dylib_path os root name ts = Some p -> parent p = Some (removelast p).
Proof.
  unfold tmp_dylib_path. destruct (tmp_file_stem os name ts); [|discriminate].
  destruct (dylib_ext os); [|discriminate]. intros H; injection H as <-.
  destruct (with_extension _ _) eqn:E; [|reflexivity].
  exfalso. refine (with_extension_nonnil _ _ _ E).
  unfold join. intros H. apply app_eq_nil in H. destruct H as [_ H]. discriminate H.
Qed.

Lemma build_load_unfold env fuel bd d p w :
  build_dylib_path env bd = Some d -> build_tmp_dylib_path env bd = Some p ->
  build_load env fuel bd w = loop fuel (build_load_body env bd d p (removelast p)) w.
Proof.
  intros Hd Hp. unfold build_load. unfold bind at 1 2 3. rewrite Hd, Hp.
  cbn [expect ret]. rewrite (tmp_dylib_path_parent _ _ _ _ _ Hp). reflexivity.
Qed.

Lemma loop_S {E A} n (body : M E (option A)) w :
  loop (S n) body w =
  match body w with
  | (ROk (Some a), w') => (ROk a, w')
  | (ROk None, w') => loop n body w'
  | (RErr e, w') => (RErr e, w')
  | (RPanic, w') => (RPanic, w')
  | (RDiverge, w') => (RDiverge, w')
  end.
Proof. cbn [loop]. unfold bind. destruct (body w) as [[[a|]| | |] w']; reflexivity. Qed.

Lemma path_eqb_neq p q : q <> p -> path_eqb q p = false.
Proof. unfold path_eqb. destruct (list_eq_dec (list_eq_dec Z.eq_dec) q p); congruence. Qed.

Ltac existing_leaf :=
  split; [first [ exists []; rewrite app_nil_r; split; reflexivity
               | eexists; split; [rewrite <- ?app_assoc; reflexivity|reflexivity] ]|];
  split; [intros q Hq; cbn; rewrite ?path_eqb_neq by exact Hq; reflexivity|];
  split; [intros H; first [discriminate H | reflexivity | symmetry; assumption | assumption]|];
  first [ repeat split | reflexivity | assumption ].

(** One iteration of the loop of [Build::load] when [tmp_path] exists. *)
Lemma build_load_body_existing env bd d p dir w c :
  w_fs w p = Some c ->
  let '(r, w') := build_load_body env bd d p dir w in
  (exists tr, w_trace w' = w_trace w ++ tr /\ copies_nothing tr = true) /\
  (forall q, q <> p -> w_fs w' q = w_fs w q) /\
  (is_macos env = false -> w_fs w' p = w_fs w p) /\
  match r with
  | ROk (Some t) =>
      tl_path t = p /\ tl_lib t = Some (w_next_lib w) /\ build_timestamp t = timestamp bd
  | ROk None => False
  | RErr e => e = LoadLibrary
  | RPanic => is_macos env = true
  | RDiverge => False
  end.
Proof.
  intros Hc. unfold build_load_body, bind, path_exists. rewrite Hc.
  destruct (is_macos env) eqn:Hm.
  - destruct (file_name p) as [f|]; cbn [expect ret panic].
    + unfold run_install_name_tool.
      destruct (env_install_name_tool env (w_fs w p)) as [[out c']|]; cbn [ret panic].
      * unfold library_new. cbn [w_fs set_file emit]. rewrite path_eqb_refl.
        destruct c' as [c'|]; [destruct (env_loader_accepts env c')|]; cbn -[b].
        all: existing_leaf.
      * existing_leaf.
    + existing_leaf.
  - cbn [ret]. unfold library_new. rewrite Hc.
    destruct (env_loader_accepts env c); cbn -[b]; existing_leaf.
Qed.

(** C3 (amended): when the temporary copy of a build already exists, one
    call of [Build::load] creates no directory and copies nothing, changes
    no other file, and leaves the copy's bytes alone except through the
    macOS [install_name_tool] fixup, which it re-runs on the copy.  It does
    not fail because the copy exists: it returns a fresh library (the next
    [dlopen]) over the same temporary path, or fails only because the
    loader rejects the file ([LoadLibrary]) or, on macOS, panics on the
    fixup. *)
Theorem load_existing_no_copy env n bd w d p c :
  build_dylib_path env bd = Some d -> build_tmp_dylib_path env bd = Some p ->
  w_fs w p = Some c ->
  let '(r, w') := build_load env (S n) bd w in
  (exists tr, w_trace w' = w_trace w ++ tr /\ copies_nothing tr = true) /\
  (forall q, q <> p -> w_fs w' q = w_fs w q) /\
  (is_macos env = false -> w_fs w' p = w_fs w p) /\
  match r with
  | ROk t => tl_path t = p /\ tl_lib t = Some (w_next_lib w) /\ build_timestamp t = timestamp bd
  | RErr e => e = LoadLibrary
  | RPanic => is_macos env = true
  | RDiverge => False
  end.
Proof.
  intros Hd Hp Hc. rewrite (build_load_unfold env (S n) bd d p w Hd Hp), loop_S.
  pose proof (build_load_body_existing env bd d p (removelast p) w c Hc) as H.
  destruct (build_load_body env bd d p (removelast p) w) as [[[t|]|e| |] w'].
  all: destruct H as (H1 & H2 & H3 & H4); try contradiction.
  all: split; [exact H1|]; split; [exact H2|]; split; [exact H3|exact H4].
Qed.

Lemma load_existing_no_copy_witness :
  let env := sample_env Linux (fun _ => None) None in
  let bd := sample_build (mkTime 1518568087 123456789) in
  let p := sample_tmp_path env (mkTime 1518568087 123456789) in
  let w := set_file sample_world p (Some [1; 2; 3]) in
  let '(r, w') := build_load env 1 bd w in
  (exists tr, w_trace w' = w_trace w ++ tr /\ copies_nothing tr = true) /\
  (forall q, q <> p -> w_fs w' q = w_fs w q) /\
  (is_macos env = false -> w_fs w' p = w_fs w p) /\
  match r with
  | ROk t => tl_path t = p /\ tl_lib t = Some (w_next_lib w) /\ build_timestamp t = timestamp bd
  | RErr e => e = LoadLibrary
  | RPanic => is_macos env = true
  | RDiverge => False
  end.
Proof.
  intros env bd p w.
  exact (load_existing_no_copy env 0 bd w sample_dylib p [1; 2; 3]
           (eq_refl : build_dylib_path env bd = Some sample_dylib)
           (eq_refl : build_tmp_dylib_path env bd = Some p)
           (eq_refl : w_fs w p = Some [1; 2; 3])).
Defined.

(** C3 counterexample: on macOS, with the copy already in place, [load]
    re-runs [install_name_tool] on it, which rewrites its bytes. *)
Lemma load_existing_rewrites_on_macos :
  let env := sample_env MacOS sample_fixup None in
  let p := sample_tmp_path env (mkTime 1518568087 123456789) in
  let w := set_file sample_world p (Some [1; 2; 3]) in
  w_fs w p = Some [1; 2; 3] /\
  match build_load env 2 (sample_build (mkTime 1518568087 123456789)) w with
  | (ROk t, w') => tl_path t = p /\ w_fs w' p = Some [1; 2; 4] /\
                   copies_nothing (w_trace w') = true
  | _ => False
  end.
Proof. vm_compute. split; [reflexivity|]. repeat split. Qed.

(** C4: [TempLibrary::new] copies the library to its temporary path and
    then hands the ORIGINAL path to [dlopen], where [Build::load], on the
    same machine and library, hands the temporary copy to [dlopen]. *)
Lemma temp_library_new_dlopens_original :
  let env := sample_env Linux (fun _ => None) None in
  let p := sample_tmp_path env (mkTime 1518568087 123456789) in
  (match temp_library_new env 2 sample_dylib (b "foo") sample_world with
   | (ROk t, w') =>
       tl_path t = p /\
       w_trace w' = [EvWriteFile debug_file; EvCreateDirAll (removelast p);
                     EvCopy sample_dylib p; EvDlopen sample_dylib true]
   | _ => False
   end) /\
  (match build_load env 2 (sample_build (mkTime 1518568087 123456789)) sample_world with
   | (ROk t, w') =>
       tl_path t = p /\
       w_trace w' = [EvCreateDirAll (removelast p); EvCopy sample_dylib p; EvDlopen p true]
   | _ => False
   end).
Proof. vm_compute. repeat split. Qed.

(** C5: [check_raw_event] never fails, and accepts an event exactly when
    it is a creation, a removal, a modification, or the closing of a file
    opened for writing. *)
Theorem check_raw_event_spec ev :
  exists worthy, check_raw_event ev = Ok worthy /\
  (worthy = true <->
     (exists k, kind ev = EKCreate k) \/ (exists k, kind ev = EKRemove k) \/
     (exists k, kind ev = EKModify k) \/ kind ev = EKAccess (AKClose AMWrite)).
Proof.
  unfold check_raw_event. eexists. split; [reflexivity|].
  destruct (kind ev) as [|[| |m|m|]|k|k|k|]; cbn;
    try (destruct m); split; intros H;
    repeat match goal with
    | H : _ \/ _ |- _ => destruct H as [H|H]
    | H : exists _, _ |- _ => destruct H as [? H]
    end;
    try discriminate H; try congruence; eauto 6.
Qed.

Lemma next_loop_skip info pre q disc :
  Forall (fun m => exists ev, m = Ok ev /\ check_raw_event ev = Ok false) pre ->
  next_loop info (pre ++ q) disc = next_loop info q disc.
Proof.
  induction 1 as [|m pre [ev [-> Hev]] _ IH]; [reflexivity|].
  cbn [app next_loop]. rewrite Hev. exact IH.
Qed.

(** C6: [Watch::next] skips the queued events the filter rejects; the first
    accepted event makes it return the package (once, consuming just the
    messages up to it); an error message from the watcher is returned as
    [NextNotify]; a queue of rejected events ends in [ChannelClosed] when
    every sender is gone and blocks otherwise.  So on
    [[plain access; modification; plain access]] it returns once, at the
    modification, and the next call blocks. *)
Theorem next_spec info pre rest disc :
  Forall (fun m => exists ev, m = Ok ev /\ check_raw_event ev = Ok false) pre ->
  (forall ev, check_raw_event ev = Ok true ->
     next {| package_info := info;
             event_rx := {| queue := pre ++ Ok ev :: rest; disconnected := disc |} |}
     = Returns (Ok info) {| queue := rest; disconnected := disc |}) /\
  (forall e,
     next {| package_info := info;
             event_rx := {| queue := pre ++ Err e :: rest; disconnected := disc |} |}
     = Returns (Err (NextNotify e)) {| queue := rest; disconnected := disc |}) /\
  next {| package_info := info; event_rx := {| queue := pre; disconnected := true |} |}
    = Returns (Err ChannelClosed) {| queue := []; disconnected := true |} /\
  next {| package_info := info; event_rx := {| queue := pre; disconnected := false |} |}
    = Blocks /\
  (forall ps1 ps2 ps3,
     let access := {| kind := EKAccess (AKOpen AMAny); paths := ps1 |} in
     let modified := {| kind := EKModify (MKData DCContent); paths := ps2 |} in
     let access' := {| kind := EKAccess (AKOpen AMAny); paths := ps3 |} in
     next {| package_info := info;
             event_rx := {| queue := [Ok access; Ok modified; Ok access'];
                            disconnected := false |} |}
     = Returns (Ok info) {| queue := [Ok access']; disconnected := false |} /\
     next {| package_info := info;
             event_rx := {| queue := [Ok access']; disconnected := false |} |} = Blocks).
Proof.
  intros Hpre. unfold next; cbn [package_info event_rx queue disconnected].
  split; [intros ev Hev; rewrite next_loop_skip by exact Hpre; cbn [next_loop]; rewrite Hev; reflexivity|].
  split; [intros e; rewrite next_loop_skip by exact Hpre; reflexivity|].
  split; [rewrite <- (app_nil_r pre), next_loop_skip by exact Hpre; reflexivity|].
  split; [rewrite <- (app_nil_r pre), next_loop_skip by exact Hpre; reflexivity|].
  intros ps1 ps2 ps3. split; reflexivity.
Qed.

Lemma next_spec_witness :
  let info := {| manifest_path := []; src_path := []; pi_lib_name := b "foo";
                 pi_target_dir_path := [] |} in
  let acc := {| kind := EKAccess AKRead; paths := [] |} in
  let modified := {| kind := EKCreate CKFile; paths := [] |} in
  next {| package_info := info;
          event_rx := {| queue := [Ok acc] ++ Ok modified :: []; disconnected := false |} |}
  = Returns (Ok info) {| queue := []; disconnected := false |}.
Proof.
  intros info acc modified.
  destruct (next_spec info [Ok acc] [] false) as [H _].
  - constructor; [exists acc; split; reflexivity|constructor].
  - apply H. reflexivity.
Defined.

Lemma library_new_ok env E q w : exists o w', @library_new env E q w = (ROk o, w').
Proof.
  unfold library_new. destruct (w_fs w q); [destruct env_loader_accepts|]; eauto.
Qed.

(** C7 (amended): on macOS, once the temporary copy exists, an
    [install_name_tool] that starts is never fatal whatever its exit status:
    [Build::load] goes on to [dlopen] the copy, and an iteration of
    [TempLibrary::new] (its output being UTF-8) goes on to its [dlopen];
    the outcome is that of the loader alone.  An [install_name_tool] that
    cannot be started makes both panic ([.expect]). *)
Theorem fixup_exit_status_ignored env n bd w d p c f out c' :
  is_macos env = true -> build_dylib_path env bd = Some d ->
  build_tmp_dylib_path env bd = Some p -> w_fs w p = Some c -> file_name p = Some f ->
  let w1 := set_file (emit w (EvSpawn (b "install_name_tool") (Some (removelast p))
                                [b "-id"; b "''"; f])) p c' in
  (env_install_name_tool env (Some c) = Some (out, c') ->
     build_load env (S n) bd w =
       match @library_new env LoadError p w1 with
       | (ROk (Some lib), w2) =>
           (ROk {| build_timestamp := timestamp bd; tl_path := p; tl_lib := Some lib |}, w2)
       | (_, w2) => (RErr LoadLibrary, w2)
       end) /\
  (forall bts dyl, env_install_name_tool env (Some c) = Some (out, c') ->
     utf8_valid (stdout out) = true -> utf8_valid (stderr out) = true ->
     temp_library_new_body env dyl bts p (removelast p) w =
       match @library_new env CreateTempLibraryError dyl w1 with
       | (ROk (Some lib), w2) =>
           (ROk (Some {| build_timestamp := bts; tl_path := p; tl_lib := Some lib |}), w2)
       | (_, w2) => (RErr (CouldNotLoadDirectlyFromDylib dyl LoadLibrary), w2)
       end) /\
  (env_install_name_tool env (Some c) = None ->
     fst (build_load env (S n) bd w) = RPanic /\
     forall bts dyl, fst (temp_library_new_body env dyl bts p (removelast p) w) = RPanic).
Proof.
  intros Hm Hd Hp Hc Hf w1. subst w1.
  split; [|split].
  - intros Ht. rewrite (build_load_unfold env (S n) bd d p w Hd Hp), loop_S.
    unfold build_load_body, bind at 1, path_exists. rewrite Hc, Hm.
    unfold bind at 1 2 3. rewrite Hf. cbn [expect ret].
    unfold run_install_name_tool at 1. rewrite Hc, Ht. cbn [ret].
    unfold bind. match goal with
    | |- match match ?X with _ => _ end with _ => _ end = match @library_new ?en ?E ?q ?w0 with _ => _ end =>
        change X with (@library_new en E q w0);
        destruct (library_new_ok en E q w0) as ([lib|] & w2 & ->) end; reflexivity.
  - intros bts dyl Ht Ho He.
    unfold temp_library_new_body, bind at 1, path_exists. rewrite Hc, Hm.
    unfold bind at 1 2 3. rewrite Hf. cbn [expect ret].
    unfold run_install_name_tool at 1. rewrite Hc, Ht. rewrite Ho, He. cbn [ret].
    unfold bind. match goal with
    | |- match ?X with _ => _ end = match @library_new ?en ?E ?q ?w0 with _ => _ end =>
        change X with (@library_new en E q w0);
        destruct (library_new_ok en E q w0) as ([lib|] & w2 & ->) end; reflexivity.
  - intros Ht. split.
    + rewrite (build_load_unfold env (S n) bd d p w Hd Hp), loop_S.
      unfold build_load_body, bind at 1, path_exists. rewrite Hc, Hm.
      unfold bind at 1 2 3. rewrite Hf. cbn [expect ret].
      unfold run_install_name_tool at 1. rewrite Hc, Ht. reflexivity.
    + intros bts dyl.
      unfold temp_library_new_body, bind at 1, path_exists. rewrite Hc, Hm.
      unfold bind at 1 2 3. rewrite Hf. cbn [expect ret].
      unfold run_install_name_tool at 1. rewrite Hc, Ht. reflexivity.
Qed.

Lemma fixup_exit_status_ignored_witness :
  let env := sample_env MacOS sample_failing_tool None in
  let bd := sample_build (mkTime 1518568087 123456789) in
  let p := sample_tmp_path env (mkTime 1518568087 123456789) in
  let f := match file_name p with Some f => f | None => [] end in
  let w := set_file sample_world p (Some [1; 2; 3]) in
  build_load env 1 bd w =
    match @library_new env LoadError p
            (set_file (emit w (EvSpawn (b "install_name_tool") (Some (removelast p))
                                 [b "-id"; b "''"; f])) p (Some [1; 2; 3])) with
    | (ROk (Some lib), w2) =>
        (ROk {| build_timestamp := timestamp bd; tl_path := p; tl_lib := Some lib |}, w2)
    | (_, w2) => (RErr LoadLibrary, w2)
    end.
Proof.
  intros env bd p f w.
  destruct (fixup_exit_status_ignored env 0 bd w
              (match build_dylib_path env bd with Some d => d | None => [] end) p [1; 2; 3] f
              {| status_success := false; status_code := Some 1; stdout := []; stderr := [255] |}
              (Some [1; 2; 3]))
    as [H _]; [reflexivity | reflexivity | reflexivity | reflexivity | vm_compute; reflexivity |].
  apply H. reflexivity.
Defined.

(** C7 counterexample: on macOS, an [install_name_tool] that cannot be
    started makes both [Build::load] and [TempLibrary::new] panic (after
    the copy, on the iteration that finds it); and one that starts but fails
    with a non-UTF-8 stderr makes [TempLibrary::new] panic, where
    [Build::load] loads the library. *)
Lemma fixup_failure_panics :
  fst (build_load (sample_env MacOS (fun _ => None) None) 2
         (sample_build (mkTime 1518568087 123456789)) sample_world) = RPanic /\
  fst (temp_library_new (sample_env MacOS (fun _ => None) None) 2 sample_dylib (b "foo")
         sample_world) = RPanic /\
  fst (temp_library_new (sample_env MacOS sample_failing_tool None) 2 sample_dylib (b "foo")
         sample_world) = RPanic /\
  match fst (build_load (sample_env MacOS sample_failing_tool None) 2
               (sample_build (mkTime 1518568087 123456789)) sample_world) with
  | ROk _ => True | _ => False end.
Proof. vm_compute. repeat split. Qed.

(** C8: [TempLibrary::new] writes the file [/tmp/fuckafucka], which lies
    outside the [hotlib] directory under the temporary root, and leaves it
    behind. *)
Lemma temp_library_new_writes_debug_file :
  let env := sample_env Linux (fun _ => None) None in
  let p := sample_tmp_path env (mkTime 1518568087 123456789) in
  (forall rest, debug_file <> tmp_dir (env_temp_root env) ++ rest) /\
  w_fs sample_world debug_file = None /\
  match temp_library_new env 2 sample_dylib (b "foo") sample_world with
  | (ROk t, w') =>
      w_fs w' debug_file = Some (debug_contents p) /\
      w_fs (snd (drop_temp_library t w')) debug_file = Some (debug_contents p)
  | _ => False
  end.
Proof.
  intros env p. split; [|vm_compute; repeat split].
  intros rest H. vm_compute in H. injection H as H. discriminate H.
Qed.

Lemma find_map_in {A B} (f : A -> option B) l y :
  find_map f l = Some y -> exists x, In x l /\ f x = Some y.
Proof.
  induction l as [|x l IH]; cbn; [discriminate|].
  destruct (f x) eqn:E; [intros H; injection H as <-; eauto|].
  intros H. destruct (IH H) as [x' [Hi Hx]]. eauto.
Qed.

Lemma find_map_none {A B} (f : A -> option B) l :
  (forall x, In x l -> f x = None) -> find_map f l = None.
Proof.
  induction l as [|x l IH]; intros H; cbn; [reflexivity|].
  rewrite (H x (or_introl eq_refl)). apply IH. intros y Hy. exact (H y (or_intror Hy)).
Qed.

Lemma read_json_no_dylib m j : no_dylib_target j = true -> read_json m j = None.
Proof.
  unfold no_dylib_target, read_json. intros Hn.
  destruct (as_object j) as [obj|] eqn:Ej; [|reflexivity]. cbn [obind].
  destruct j; try discriminate Ej. injection Ej as ->. cbn [get] in Hn.
  destruct (obind (obj_get obj (b "target_directory")) as_str); [|reflexivity]. cbn [obind].
  destruct (obind (obj_get obj (b "packages")) as_array) as [pkgs|]; [|reflexivity].
  cbn [obind].
  destruct (find_map _ pkgs) as [pkg|] eqn:Ep; [|reflexivity]. cbn [obind].
  apply find_map_in in Ep. destruct Ep as [x [Hx Hf]].
  destruct (obind (get x (b "manifest_path")) as_str) as [s|]; [|discriminate Hf].
  cbn [obind] in Hf. destruct (bytes_eqb s m); [|discriminate Hf]. injection Hf as ->.
  rewrite forallb_forall in Hn. specialize (Hn pkg Hx).
  destruct (obind (get pkg (b "targets")) as_array) as [targets|]; [|reflexivity].
  cbn [obind]. rewrite find_map_none; [reflexivity|].
  intros t Ht. rewrite forallb_forall in Hn. specialize (Hn t Ht).
  destruct (obind (get t (b "kind")) as_array); [|reflexivity]. cbn [obind].
  destruct (has_dylib_kind l); [discriminate Hn|reflexivity].
Qed.

(** C9: when [p] names a [Cargo.toml], [cargo metadata] runs and succeeds,
    and its output parses to metadata in which no target has the ["dylib"]
    kind, [watch] fails with [NoDylibTarget], having done nothing but run
    [cargo metadata]: no watcher is created and nothing is watched. *)
Theorem watch_no_dylib_target env p w out j :
  ends_with p (b "Cargo.toml") || ends_with p (b "cargo.toml") = true ->
  env_cargo_metadata env (display p) = Some out -> status_success out = true ->
  env_parse_json env (stdout out) = Some j -> no_dylib_target j = true ->
  watch env p w =
    (RErr NoDylibTarget,
     emit w (EvSpawn (b "cargo") None
               [b "metadata"; b "--manifest-path"; display p;
                b "--format-version"; b "1"])).
Proof.
  intros Hp Hm Hs Hj Hn. unfold watch.
  destruct (ends_with p (b "Cargo.toml")), (ends_with p (b "cargo.toml"));
    try discriminate Hp; cbn [negb andb];
  unfold bind, cargo_metadata; rewrite Hm, Hs, Hj; cbn [negb];
  rewrite read_json_no_dylib by exact Hn; reflexivity.
Qed.

Lemma watch_no_dylib_target_witness :
  watch (sample_env Linux (fun _ => None) (Some sample_metadata_no_dylib))
    (path_of_str (b "/proj/Cargo.toml")) sample_world =
  (RErr NoDylibTarget,
   emit sample_world (EvSpawn (b "cargo") None
             [b "metadata"; b "--manifest-path"; display (path_of_str (b "/proj/Cargo.toml"));
              b "--format-version"; b "1"])).
Proof.
  apply (watch_no_dylib_target _ _ _
           {| status_success := true; status_code := Some 0; stdout := []; stderr := [] |}
           sample_metadata_no_dylib); vm_compute; reflexivity.
Defined.

(** A loop whose body, once it asks for another iteration, leaves a state
    in which it never asks again, is settled after two iterations. *)
Lemma loop_settles {E A} (body : M E (option A)) (Q : World -> Prop) :
  (forall w w', body w = (ROk None, w') -> Q w') ->
  (forall w, Q w -> fst (body w) <> ROk None) ->
  (forall w, fst (body w) <> RDiverge) ->
  forall n w, loop (S (S n)) body w = loop 2 body w /\ fst (loop 2 body w) <> RDiverge.
Proof.
  intros H1 H2 H3 n w. rewrite !loop_S.
  destruct (body w) as [[[a|]|e| |] w1] eqn:E1; try (split; [reflexivity|discriminate]);
    [|exfalso; apply (H3 w); rewrite E1; reflexivity].
  rewrite !loop_S.
  destruct (body w1) as [[[a|]|e| |] w2] eqn:E2; try (split; [reflexivity|discriminate]);
    [|exfalso; apply (H3 w1); rewrite E2; reflexivity].
  exfalso. apply (H2 w1 (H1 w w1 E1)). rewrite E2. reflexivity.
Qed.

(** An iteration of [Build::load] that asks for another one has copied the
    library to [tmp_path]. *)
Lemma build_load_body_continue env bd d p dir w w' :
  build_load_body env bd d p dir w = (ROk None, w') -> w_fs w' p <> None.
Proof.
  unfold build_load_body, bind at 1, path_exists.
  destruct (w_fs w p) as [c|] eqn:Hc.
  - intros H. pose proof (build_load_body_existing env bd d p dir w c Hc) as Hx.
    unfold build_load_body, bind at 1, path_exists in Hx. rewrite Hc in Hx.
    rewrite H in Hx. destruct Hx as (_ & _ & _ & []).
  - unfold bind, create_dir_all. destruct (env_create_dir_all_ok env dir); cbn; [|discriminate].
    unfold fs_copy. cbn [w_fs emit]. destruct (w_fs w d) as [c|]; [|discriminate].
    destruct (env_copy_ok env d p); cbn; [|discriminate].
    intros H; injection H as <-. cbn. rewrite path_eqb_refl. discriminate.
Qed.

Lemma temp_library_new_body_continue env dyl bts p dir w w' :
  temp_library_new_body env dyl bts p dir w = (ROk None, w') -> w_fs w' p <> None.
Proof.
  unfold temp_library_new_body, bind, path_exists.
  destruct (w_fs w p) as [c|] eqn:Hc.
  - destruct (is_macos env).
    + destruct (file_name p); cbn [expect ret panic]; [|discriminate].
      unfold run_install_name_tool.
      destruct (env_install_name_tool env (w_fs w p)) as [[out c']|]; cbn [ret panic];
        [|discriminate].
      destruct (utf8_valid (stdout out)); [|discriminate].
      destruct (utf8_valid (stderr out)); [|discriminate]. cbn [ret].
      destruct (@library_new env CreateTempLibraryError dyl _) as [[[l|]| | |] w2];
        cbn; discriminate.
    + cbn [ret]. destruct (@library_new env CreateTempLibraryError dyl w) as [[[l|]| | |] w2];
        cbn; discriminate.
  - unfold create_dir_all. destruct (env_create_dir_all_ok env dir); cbn; [|discriminate].
    unfold fs_copy. cbn [w_fs emit]. destruct (w_fs w dyl) as [c|]; [|discriminate].
    destruct (env_copy_ok env dyl p); cbn; [|discriminate].
    intros H; injection H as <-. cbn. rewrite path_eqb_refl. discriminate.
Qed.

Lemma temp_library_new_body_existing env dyl bts p dir w :
  w_fs w p <> None -> fst (temp_library_new_body env dyl bts p dir w) <> ROk None.
Proof.
  intros Hc. unfold temp_library_new_body, bind, path_exists.
  destruct (w_fs w p) as [c|]; [|contradiction].
  destruct (is_macos env).
  - destruct (file_name p); cbn [expect ret panic]; [|discriminate].
    unfold run_install_name_tool.
    destruct (env_install_name_tool env (w_fs w p)) as [[out c']|]; cbn [ret panic];
      [|discriminate].
    destruct (utf8_valid (stdout out)); [|discriminate].
    destruct (utf8_valid (stderr out)); [|discriminate]. cbn [ret].
    destruct (@library_new env CreateTempLibraryError dyl _) as [[[l|]| | |] w2];
      cbn; discriminate.
  - cbn [ret]. destruct (@library_new env CreateTempLibraryError dyl w) as [[[l|]| | |] w2];
      cbn; discriminate.
Qed.

Lemma no_diverge_bind {E A B} (m : M E A) (k : A -> M E B) :
  (forall w, fst (m w) <> RDiverge) -> (forall a w, fst (k a w) <> RDiverge) ->
  forall w, fst (bind m k w) <> RDiverge.
Proof.
  intros Hm Hk w. unfold bind. specialize (Hm w).
  destruct (m w) as [[a|e| |] w']; cbn in *; [apply Hk|discriminate|discriminate|contradiction].
Qed.

Ltac no_diverge :=
  repeat first
    [ apply no_diverge_bind; [|intros ?]
    | progress cbn [negb]
    | match goal with
      | |- forall w, fst ((if ?x then _ else _) w) <> RDiverge => destruct x
      | |- forall w, fst ((match ?x with _ => _ end) w) <> RDiverge => destruct x
      end
    | intros w; unfold ret, throw, panic, expect, path_exists, create_dir_all, fs_copy,
        fs_write, library_new, run_install_name_tool;
      repeat (destruct (w_fs w _)); repeat (match goal with |- context [if ?x then _ else _] => destruct x end);
      repeat (match goal with |- context [match ?x with _ => _ end] => destruct x end);
      cbn; discriminate ].

Lemma build_load_body_no_diverge env bd d p dir w :
  fst (build_load_body env bd d p dir w) <> RDiverge.
Proof. revert w. unfold build_load_body. no_diverge. Qed.

Lemma temp_library_new_body_no_diverge env dyl bts p dir w :
  fst (temp_library_new_body env dyl bts p dir w) <> RDiverge.
Proof. revert w. unfold temp_library_new_body. no_diverge. Qed.

(** C10: both loading entry points settle within two iterations of their
    loop, whatever the machine and the files: with more iterations allowed
    the outcome is the same, and it is never the exhausted budget.  An
    iteration asks for another one only after its copy has put the library
    at [tmp_path]; a failed directory creation or copy ends the call with an
    error. *)
Theorem loads_terminate env n bd dyl name w :
  build_load env (S (S n)) bd w = build_load env 2 bd w /\
  fst (build_load env 2 bd w) <> RDiverge /\
  temp_library_new env (S (S n)) dyl name w = temp_library_new env 2 dyl name w /\
  fst (temp_library_new env 2 dyl name w) <> RDiverge /\
  (forall d p dir w1 w2,
     build_load_body env bd d p dir w1 = (ROk None, w2) -> w_fs w2 p <> None) /\
  (forall bts p dir w1 w2,
     temp_library_new_body env dyl bts p dir w1 = (ROk None, w2) -> w_fs w2 p <> None).
Proof.
  split; [|split; [|split; [|split; [|split]]]].
  5: exact (build_load_body_continue env bd).
  5: exact (temp_library_new_body_continue env dyl).
  - unfold build_load, bind.
    destruct (build_dylib_path env bd) as [d|]; cbn [expect ret panic]; [|reflexivity].
    destruct (build_tmp_dylib_path env bd) as [p|]; cbn [expect ret panic]; [|reflexivity].
    destruct (parent p) as [dir|]; cbn [expect ret panic]; [|reflexivity].
    apply (loop_settles _ (fun w => w_fs w p <> None)).
    + exact (build_load_body_continue env bd d p dir).
    + intros w' Hw' E. destruct (w_fs w' p) as [c|] eqn:Hc; [|contradiction].
      pose proof (build_load_body_existing env bd d p dir w' c Hc) as Hx.
      destruct (build_load_body env bd d p dir w') as [r w'']. cbn in E. subst r.
      destruct Hx as (_ & _ & _ & []).
    + exact (build_load_body_no_diverge env bd d p dir).
  - unfold build_load, bind.
    destruct (build_dylib_path env bd) as [d|]; cbn [expect ret panic fst]; [|discriminate].
    destruct (build_tmp_dylib_path env bd) as [p|]; cbn [expect ret panic fst]; [|discriminate].
    destruct (parent p) as [dir|]; cbn [expect ret panic fst]; [|discriminate].
    apply (loop_settles _ (fun w => w_fs w p <> None)) with (n := 0%nat).
    + exact (build_load_body_continue env bd d p dir).
    + intros w' Hw' E. destruct (w_fs w' p) as [c|] eqn:Hc; [|contradiction].
      pose proof (build_load_body_existing env bd d p dir w' c Hc) as Hx.
      destruct (build_load_body env bd d p dir w') as [r w'']. cbn in E. subst r.
      destruct Hx as (_ & _ & _ & []).
    + exact (build_load_body_no_diverge env bd d p dir).
  - unfold temp_library_new, bind, path_exists.
    destruct (w_fs w dyl); cbn [negb]; [|reflexivity].
    destruct (env_created env dyl) as [bts|]; [|reflexivity].
    destruct (tmp_dylib_path _ _ _ _) as [p|]; cbn [expect ret panic]; [|reflexivity].
    destruct (parent p) as [dir|]; cbn [expect ret panic]; [|reflexivity].
    unfold fs_write. destruct (env_write_ok env debug_file); cbn [ret panic]; [|reflexivity].
    apply (loop_settles _ (fun w => w_fs w p <> None)).
    + exact (temp_library_new_body_continue env dyl bts p dir).
    + exact (temp_library_new_body_existing env dyl bts p dir).
    + exact (temp_library_new_body_no_diverge env dyl bts p dir).
  - unfold temp_library_new, bind, path_exists.
    destruct (w_fs w dyl); cbn [negb fst]; [|discriminate].
    destruct (env_created env dyl) as [bts|]; [|discriminate].
    destruct (tmp_dylib_path _ _ _ _) as [p|]; cbn [expect ret panic fst]; [|discriminate].
    destruct (parent p) as [dir|]; cbn [expect ret panic fst]; [|discriminate].
    unfold fs_write. destruct (env_write_ok env debug_file); cbn [ret panic fst]; [|discriminate].
    apply (loop_settles _ (fun w => w_fs w p <> None)) with (n := 0%nat).
    + exact (temp_library_new_body_continue env dyl bts p dir).
    + exact (temp_library_new_body_existing env dyl bts p dir).
    + exact (temp_library_new_body_no_diverge env dyl bts p dir).
Qed.

(** * Further properties of the code *)

(** ** [String::from_utf8_lossy] in [ExitStatusUnsuccessfulError::from_output] *)

Lemma utf8_valid_replacement t : utf8_valid (REPLACEMENT ++ t) = utf8_valid t.
Proof. reflexivity. Qed.

Ltac lossy_cases IH :=
  repeat match goal with
  | |- context [if ?c then _ else _] => destruct c eqn:?
  | |- context [match ?l with [] => _ | _ :: _ => _ end] =>
      match l with from_utf8_lossy _ => fail 1 | _ => destruct l end
  end;
  cbn [utf8_valid app] in *;
  repeat match goal with H : ?c = _ |- context [?c] => rewrite H end;
  cbn [andb negb] in *.

Lemma from_utf8_lossy_valid_len n (s : bytes) :
  (List.length s <= n)%nat -> utf8_valid (from_utf8_lossy s) = true.
Proof.
  revert s; induction n as [|n IH]; intros [|x rest] Hl; try reflexivity;
    [cbn in Hl; lia|].
  cbn [from_utf8_lossy]. unfold second_ok3, second_ok4 in *.
  lossy_cases IH; try reflexivity; apply IH; cbn in Hl |- *; lia.
Qed.

Lemma from_utf8_lossy_id_len n (s : bytes) :
  (List.length s <= n)%nat -> utf8_valid s = true -> from_utf8_lossy s = s.
Proof.
  revert s; induction n as [|n IH]; intros [|x rest] Hl Hv; try reflexivity;
    [cbn in Hl; lia|].
  cbn [from_utf8_lossy]. cbn [utf8_valid] in Hv. unfold second_ok3, second_ok4.
  lossy_cases IH;
    repeat match goal with H : context [match ?l with [] => _ | _ :: _ => _ end] |- _ =>
      destruct l; cbn [andb] in H end;
    try discriminate;
    repeat match goal with H : _ && _ = true |- _ => apply andb_prop in H; destruct H end;
    try congruence;
    repeat f_equal; apply IH; cbn in Hl |- *; (lia || assumption).
Qed.

(** Extra: [String::from_utf8_lossy] leaves a byte string unchanged exactly
    when it is valid UTF-8. *)
Theorem from_utf8_lossy_fixed_iff (s : bytes) :
  from_utf8_lossy s = s <-> utf8_valid s = true.
Proof.
  split.
  - intros H. rewrite <- H. exact (from_utf8_lossy_valid_len _ s (le_n _)).
  - exact (from_utf8_lossy_id_len _ s (le_n _)).
Qed.

(** Extra: [ExitStatusUnsuccessfulError::from_output] gives no error for a
    successful status; for a failed one it keeps the exit code and turns
    stderr into valid UTF-8, unchanged if it already was. *)
Theorem from_output_spec (output : Output) :
  match from_output output with
  | None => status_success output = true
  | Some err =>
      status_success output = false /\ eu_code err = status_code output /\
      utf8_valid (eu_stderr err) = true /\
      (utf8_valid (stderr output) = true -> eu_stderr err = stderr output)
  end.
Proof.
  unfold from_output. destruct (status_success output); cbn [negb]; [reflexivity|].
  cbn [eu_code eu_stderr]. repeat split.
  - exact (from_utf8_lossy_valid_len _ _ (le_n _)).
  - intros H. exact (from_utf8_lossy_id_len _ _ (le_n _) H).
Qed.

(** ** [Watch::try_next] against [Watch::next] *)

(** Extra: [Watch::try_next] answers as [Watch::next] does where that returns
    a package or an event error, on the same channel state; where [next]
    would report a closed channel or block on an empty queue, [try_next]
    returns [Ok(None)] instead. *)
Theorem try_next_next (w : Watch) :
  try_next w =
  match next w with
  | Returns (Ok p) rx => (Ok (Some p), rx)
  | Returns (Err ChannelClosed) rx => (Ok None, rx)
  | Returns (Err e) rx => (Err e, rx)
  | Blocks => (Ok None, {| queue := []; disconnected := disconnected (event_rx w) |})
  end.
Proof.
  destruct w as [info [q disc]]. unfold try_next, next; cbn [package_info event_rx queue disconnected].
  induction q as [|[ev|e] q IH]; cbn [try_next_loop next_loop].
  - destruct disc; reflexivity.
  - unfold check_raw_event. destruct (_ || _); [reflexivity|exact IH].
  - reflexivity.
Qed.

(** ** [Package::build] *)


(** ** The [read_json] closure of [watch] *)

Lemma bytes_eqb_true x y : bytes_eqb x y = true -> x = y.
Proof. unfold bytes_eqb. destruct (list_eq_dec Z.eq_dec x y); congruence. Qed.

(** Extra: what [read_json] returns is read off the metadata: the
    [target_directory] string, and a target with a [dylib] kind, its [name]
    and its [src_path], in a package whose [manifest_path] is the given
    manifest. *)
Theorem read_json_sound (mp : bytes) (j : Json) td src name :
  read_json mp j = Some (td, src, name) ->
  exists obj tds pkgs pkg targets target kind srcs,
    j = JObject obj /\
    obj_get obj (b "target_directory") = Some (JString tds) /\ td = path_of_str tds /\
    obj_get obj (b "packages") = Some (JArray pkgs) /\ In pkg pkgs /\
    get pkg (b "manifest_path") = Some (JString mp) /\
    get pkg (b "targets") = Some (JArray targets) /\ In target targets /\
    get target (b "kind") = Some (JArray kind) /\ has_dylib_kind kind = true /\
    get target (b "name") = Some (JString name) /\
    get target (b "src_path") = Some (JString srcs) /\ src = path_of_str srcs.
Proof.
  unfold read_json. destruct j as [| | | | |obj]; cbn [as_object obind]; try discriminate.
  destruct (obj_get obj (b "target_directory")) as [[| | |tds| |]|] eqn:Etd;
    cbn [obind as_str]; try discriminate.
  destruct (obj_get obj (b "packages")) as [[| | | |pkgs|]|] eqn:Epk;
    cbn [obind as_array]; try discriminate.
  destruct (find_map _ pkgs) as [pkg|] eqn:Ef; cbn [obind]; try discriminate.
  destruct (find_map_in _ _ _ Ef) as [pkg' [Hin Hx]].
  destruct (get pkg' (b "manifest_path")) as [[| | |s| |]|] eqn:Em;
    cbn [obind as_str] in Hx; try discriminate.
  destruct (bytes_eqb s mp) eqn:Eb; [|discriminate]. injection Hx as <-.
  apply bytes_eqb_true in Eb; subst s.
  destruct (get pkg' (b "targets")) as [[| | | |targets|]|] eqn:Etg;
    cbn [obind as_array]; try discriminate.
  destruct (find_map _ targets) as [target|] eqn:Ft; cbn [obind]; try discriminate.
  destruct (find_map_in _ _ _ Ft) as [target' [Hin' Hy]].
  destruct (get target' (b "kind")) as [[| | | |kind|]|] eqn:Ek;
    cbn [obind as_array] in Hy; try discriminate.
  destruct (has_dylib_kind kind) eqn:Eh; [|discriminate]. injection Hy as <-.
  destruct (get target' (b "name")) as [[| | |nm| |]|] eqn:En;
    cbn [obind as_str]; try discriminate.
  destruct (get target' (b "src_path")) as [[| | |srcs| |]|] eqn:Es;
    cbn [obind as_str]; try discriminate.
  intros H; injection H as <- <- <-.
  exists obj, tds, pkgs, pkg', targets, target', kind, srcs. repeat split; assumption.
Qed.

Lemma read_json_sound_witness :
  read_json (b "/proj/Cargo.toml") sample_metadata_dylib =
    Some (path_of_str (b "/proj/target"), path_of_str (b "/proj/src/lib.rs"), b "foo") /\
  exists obj tds pkgs pkg targets target kind srcs,
    sample_metadata_dylib = JObject obj /\
    obj_get obj (b "target_directory") = Some (JString tds) /\
    path_of_str (b "/proj/target") = path_of_str tds /\
    obj_get obj (b "packages") = Some (JArray pkgs) /\ In pkg pkgs /\
    get pkg (b "manifest_path") = Some (JString (b "/proj/Cargo.toml")) /\
    get pkg (b "targets") = Some (JArray targets) /\ In target targets /\
    get target (b "kind") = Some (JArray kind) /\ has_dylib_kind kind = true /\
    get target (b "name") = Some (JString (b "foo")) /\
    get target (b "src_path") = Some (JString srcs) /\
    path_of_str (b "/proj/src/lib.rs") = path_of_str srcs.
Proof.
  split; [vm_compute; reflexivity|].
  apply read_json_sound. vm_compute. reflexivity.
Defined.

(** ** [watch] *)



(** ** [Build::load]: the handle it returns and its edge cases *)

Lemma loop_ok {E A} n (body : M E (option A)) w a w' :
  loop n body w = (ROk a, w') -> exists w0, body w0 = (ROk (Some a), w').
Proof.
  revert w; induction n as [|n IH]; intros w; [discriminate|]. rewrite loop_S.
  destruct (body w) as [[[a'|]|e| |] w1] eqn:E1; try discriminate.
  - intros H; injection H as -> ->. eauto.
  - apply IH.
Qed.

Lemma library_new_some env E q w l w' :
  @library_new env E q w = (ROk (Some l), w') ->
  l = w_next_lib w /\ w_next_lib w' = S l /\ w_fs w' = w_fs w /\
  w_trace w' = w_trace w ++ [EvDlopen q true] /\
  exists c, w_fs w q = Some c /\ env_loader_accepts env c = true.
Proof.
  unfold library_new. destruct (w_fs w q) as [c|]; [|discriminate].
  destruct (env_loader_accepts env c) eqn:Ea; [|discriminate].
  intros H; injection H as <- <-. cbn. repeat split. eauto.
Qed.

Lemma build_load_body_some env bd d p dir w t w' :
  build_load_body env bd d p dir w = (ROk (Some t), w') ->
  exists w1, @library_new env LoadError p w1 = (ROk (tl_lib t), w') /\
    tl_path t = p /\ build_timestamp t = timestamp bd /\ tl_lib t <> None.
Proof.
  unfold build_load_body, bind, path_exists.
  destruct (w_fs w p) as [c|].
  - destruct (is_macos env).
    + destruct (file_name p) as [f|]; cbn [expect ret panic]; [|discriminate].
      unfold run_install_name_tool.
      destruct (env_install_name_tool env (w_fs w p)) as [[out c']|]; cbn [ret panic];
        [|discriminate].
      match goal with |- context [@library_new env LoadError p ?w1] =>
        destruct (@library_new env LoadError p w1) as [[[l|]| | |] w2] eqn:El end;
        cbn [throw ret]; try discriminate.
      intros H; injection H as <- <-. eexists. split; [exact El|]. cbn. repeat split. discriminate.
    + cbn [ret]. destruct (@library_new env LoadError p w) as [[[l|]| | |] w2] eqn:El;
        cbn [throw ret]; try discriminate.
      intros H; injection H as <- <-. eexists. split; [exact El|]. cbn. repeat split. discriminate.
  - unfold create_dir_all. destruct (env_create_dir_all_ok env dir); cbn [negb throw]; [|discriminate].
    unfold fs_copy. destruct (w_fs _ d); [destruct (env_copy_ok env d p)|];
      cbn [negb throw ret]; discriminate.
Qed.

(** Extra: a [TempLibrary] returned by [Build::load] carries the build's
    timestamp and the temporary path, and holds the library of the last
    [dlopen], a successful one of that path, which exists and whose bytes
    the loader accepted. *)
Theorem build_load_handle env fuel bd w t w' :
  build_load env fuel bd w = (ROk t, w') ->
  exists p lib tr c,
    build_tmp_dylib_path env bd = Some p /\
    tl_path t = p /\ build_timestamp t = timestamp bd /\ tl_lib t = Some lib /\
    w_trace w' = tr ++ [EvDlopen p true] /\ w_next_lib w' = S lib /\
    w_fs w' p = Some c /\ env_loader_accepts env c = true.
Proof.
  unfold build_load, bind at 1 2 3.
  destruct (build_dylib_path env bd) as [d|]; cbn [expect ret panic]; [|discriminate].
  destruct (build_tmp_dylib_path env bd) as [p|]; cbn [expect ret panic]; [|discriminate].
  destruct (parent p) as [dir|]; cbn [expect ret panic]; [|discriminate].
  intros H. destruct (loop_ok _ _ _ _ _ H) as [w0 H0].
  destruct (build_load_body_some _ _ _ _ _ _ _ _ H0) as [w1 [El [Hp [Ht Hl]]]].
  destruct (tl_lib t) as [lib|] eqn:Etl; [|contradiction].
  destruct (library_new_some _ _ _ _ _ _ El) as [-> [Hn [Hfs [Htr [c [Hc Ha]]]]]].
  exists p, (w_next_lib w1), (w_trace w1), c. repeat split; try assumption.
  rewrite Hfs. exact Hc.
Qed.

Lemma build_load_handle_witness :
  exists t w',
    build_load (sample_env Linux (fun _ => None) None) 2%nat (sample_build (mkTime 1518568087 0))
      sample_world = (ROk t, w') /\
    exists p lib tr c,
      build_tmp_dylib_path (sample_env Linux (fun _ => None) None)
        (sample_build (mkTime 1518568087 0)) = Some p /\
      tl_path t = p /\ build_timestamp t = timestamp (sample_build (mkTime 1518568087 0)) /\
      tl_lib t = Some lib /\
      w_trace w' = tr ++ [EvDlopen p true] /\ w_next_lib w' = S lib /\
      w_fs w' p = Some c /\ env_loader_accepts (sample_env Linux (fun _ => None) None) c = true.
Proof.
  eexists; eexists. split; [vm_compute; reflexivity|].
  apply build_load_handle with (fuel := 2%nat) (w := sample_world). vm_compute. reflexivity.
Defined.

(** Extra: when neither the built library nor its temporary copy exists,
    [Build::load] fails with an I/O error from the copy; at most the
    temporary directory has been created, no file has changed and nothing
    was loaded. *)
Theorem build_load_missing_dylib env n bd w d p :
  build_dylib_path env bd = Some d -> build_tmp_dylib_path env bd = Some p ->
  w_fs w d = None -> w_fs w p = None ->
  build_load env (S n) bd w =
    (RErr LoadIo,
     if env_create_dir_all_ok env (removelast p)
     then emit w (EvCreateDirAll (removelast p)) else w).
Proof.
  intros Hd Hp Hfd Hfp. rewrite (build_load_unfold _ _ _ _ _ _ Hd Hp), loop_S.
  unfold build_load_body, bind, path_exists. rewrite Hfp.
  unfold create_dir_all. destruct (env_create_dir_all_ok env (removelast p));
    cbn [negb throw]; [|reflexivity].
  unfold fs_copy. cbn [emit w_fs]. rewrite Hfd. reflexivity.
Qed.

Lemma build_load_missing_dylib_witness :
  let env := sample_env Linux (fun _ => None) None in
  let bd := {| lib_name := b "bar"; target_dir_path := path_of_str (b "/proj/target");
               timestamp := mkTime 1518568087 0 |} in
  let p := match build_tmp_dylib_path env bd with Some p => p | None => [] end in
  build_load env 1 bd sample_world = (RErr LoadIo, emit sample_world (EvCreateDirAll (removelast p))).
Proof.
  intros env bd p.
  exact (build_load_missing_dylib env 0 bd sample_world
           (match build_dylib_path env bd with Some d => d | None => [] end) p
           ltac:(vm_compute; reflexivity) ltac:(vm_compute; reflexivity)
           ltac:(vm_compute; reflexivity) ltac:(vm_compute; reflexivity)).
Defined.

Lemma build_load_fresh_copy_run env n bd w d p c :
  build_dylib_path env bd = Some d -> build_tmp_dylib_path env bd = Some p ->
  w_fs w d = Some c -> w_fs w p = None -> is_macos env = false ->
  env_create_dir_all_ok env (removelast p) = true -> env_copy_ok env d p = true ->
  env_loader_accepts env c = true ->
  exists w',
    build_load env (S (S n)) bd w =
      (ROk {| build_timestamp := timestamp bd; tl_path := p; tl_lib := Some (w_next_lib w) |}, w') /\
    w_fs w' p = Some c /\ (forall q, q <> p -> w_fs w' q = w_fs w q) /\
    w_next_lib w' = S (w_next_lib w) /\
    w_trace w' = w_trace w ++ [EvCreateDirAll (removelast p); EvCopy d p; EvDlopen p true].
Proof.
  intros Hd Hp Hfd Hfp Hm Hcr Hcp Ha.
  rewrite (build_load_unfold _ _ _ _ _ _ Hd Hp), loop_S.
  unfold build_load_body at 1, bind at 1 2, path_exists. rewrite Hfp.
  unfold create_dir_all. rewrite Hcr. cbn [negb].
  cbv beta iota delta [negb bind fs_copy emit]. cbn [w_fs]. rewrite Hfd, Hcp. cbv beta iota delta [negb ret].
  rewrite loop_S. unfold build_load_body, bind, path_exists.
  cbn [emit set_file w_fs]. rewrite path_eqb_refl. rewrite Hm. cbn [ret].
  unfold library_new. cbn [emit set_file w_fs w_next_lib]. rewrite path_eqb_refl, Ha.
  cbn. eexists. split; [reflexivity|].
  split; [cbn; rewrite ?path_eqb_refl; reflexivity|].
  split; [intros q Hq; cbn; rewrite path_eqb_neq by exact Hq; reflexivity|].
  split; [reflexivity|]. cbn. rewrite <- !app_assoc. reflexivity.
Qed.

(** Extra: off macOS, when the temporary copy does not exist yet and the
    directory creation, the copy and the [dlopen] succeed, [Build::load]
    creates the directory, copies the built library's bytes to the
    temporary path, loads that copy, and returns a handle on it; no other
    file changes. *)
Theorem build_load_fresh_copy env n bd w d p c :
  build_dylib_path env bd = Some d -> build_tmp_dylib_path env bd = Some p ->
  w_fs w d = Some c -> w_fs w p = None -> is_macos env = false ->
  env_create_dir_all_ok env (removelast p) = true -> env_copy_ok env d p = true ->
  env_loader_accepts env c = true ->
  exists w',
    build_load env (S (S n)) bd w =
      (ROk {| build_timestamp := timestamp bd; tl_path := p; tl_lib := Some (w_next_lib w) |}, w') /\
    w_fs w' p = Some c /\ (forall q, q <> p -> w_fs w' q = w_fs w q) /\
    w_next_lib w' = S (w_next_lib w) /\
    w_trace w' = w_trace w ++ [EvCreateDirAll (removelast p); EvCopy d p; EvDlopen p true].
Proof.
  exact (build_load_fresh_copy_run env n bd w d p c).
Qed.

Lemma build_load_fresh_copy_witness :
  let env := sample_env Linux (fun _ => None) None in
  let bd := sample_build (mkTime 1518568087 0) in
  let p := sample_tmp_path env (mkTime 1518568087 0) in
  exists w',
    build_load env 2 bd sample_world =
      (ROk {| build_timestamp := timestamp bd; tl_path := p;
              tl_lib := Some (w_next_lib sample_world) |}, w') /\
    w_fs w' p = Some [1; 2; 3] /\ (forall q, q <> p -> w_fs w' q = w_fs sample_world q) /\
    w_next_lib w' = S (w_next_lib sample_world) /\
    w_trace w' = w_trace sample_world ++
      [EvCreateDirAll (removelast p); EvCopy sample_dylib p; EvDlopen p true].
Proof.
  intros env bd p.
  exact (build_load_fresh_copy env 0 bd sample_world sample_dylib p [1; 2; 3]
           ltac:(vm_compute; reflexivity) ltac:(vm_compute; reflexivity)
           ltac:(vm_compute; reflexivity) ltac:(vm_compute; reflexivity)
           ltac:(vm_compute; reflexivity) ltac:(vm_compute; reflexivity)
           ltac:(vm_compute; reflexivity) ltac:(vm_compute; reflexivity)).
Defined.

(** ** Unsupported platforms, [TempLibrary::new]'s metadata errors and
    [Build::load_in_place] *)

(** Extra: on a platform without a known dynamic library extension,
    [Build::load] and [Build::load_in_place] panic before any effect, and
    [TempLibrary::new] has no effect either: it fails on the file's
    metadata or panics. *)
Theorem unsupported_platform_no_effect env fuel bd dylib name w :
  env_os env = OtherOS ->
  build_load env fuel bd w = (RPanic, w) /\ load_in_place env bd w = (RPanic, w) /\
  snd (temp_library_new env fuel dylib name w) = w /\
  (fst (temp_library_new env fuel dylib name w) = RPanic \/
   fst (temp_library_new env fuel dylib name w) = RErr (CannotGetMetadata dylib) \/
   fst (temp_library_new env fuel dylib name w) = RErr (CannotGetFileCreationTime dylib)).
Proof.
  intros Hos.
  assert (Hd : build_dylib_path env bd = None) by (unfold build_dylib_path; rewrite Hos; reflexivity).
  split; [unfold build_load, bind at 1; rewrite Hd; reflexivity|].
  split; [unfold load_in_place, bind at 1; rewrite Hd; reflexivity|].
  assert (Ht : exists r, temp_library_new env fuel dylib name w = (r, w) /\
            (r = RPanic \/ r = RErr (CannotGetMetadata dylib) \/
             r = RErr (CannotGetFileCreationTime dylib))).
  { unfold temp_library_new, bind at 1, path_exists.
    destruct (w_fs w dylib); cbn [negb].
    - destruct (env_created env dylib) as [bts|].
      + unfold bind at 1, tmp_dylib_path. rewrite Hos.
        destruct (tmp_file_stem OtherOS name bts); cbn [dylib_ext expect panic];
          eexists; split; first [reflexivity | auto].
      + eexists; split; first [reflexivity | auto].
    - eexists; split; first [reflexivity | auto]. }
  destruct Ht as [r [-> Hr]]. split; [reflexivity|exact Hr].
Qed.

Lemma unsupported_platform_no_effect_witness :
  let env := sample_env OtherOS (fun _ => None) None in
  let bd := sample_build (mkTime 1518568087 0) in
  build_load env 2 bd sample_world = (RPanic, sample_world) /\
  load_in_place env bd sample_world = (RPanic, sample_world) /\
  snd (temp_library_new env 2 sample_dylib (b "foo") sample_world) = sample_world /\
  (fst (temp_library_new env 2 sample_dylib (b "foo") sample_world) = RPanic \/
   fst (temp_library_new env 2 sample_dylib (b "foo") sample_world) =
     RErr (CannotGetMetadata sample_dylib) \/
   fst (temp_library_new env 2 sample_dylib (b "foo") sample_world) =
     RErr (CannotGetFileCreationTime sample_dylib)).
Proof. intros env bd. apply unsupported_platform_no_effect. reflexivity. Defined.



(** ** [slug::slugify] *)

Lemma slug_keep x : ((97 <=? x) && (x <=? 122)) || ((48 <=? x) && (x <=? 57)) = true ->
  slug_char x = true /\ x <> 45.
Proof.
  unfold slug_char. intros H. rewrite H. split; [reflexivity|].
  apply orb_true_iff in H. rewrite !andb_true_iff, !Z.leb_le in H. lia.
Qed.

Lemma slug_lower x : (65 <=? x) && (x <=? 90) = true ->
  slug_char (x - 65 + 97) = true /\ x - 65 + 97 <> 45.
Proof.
  rewrite andb_true_iff, !Z.leb_le. intros H. unfold slug_char.
  replace ((97 <=? x - 65 + 97) && (x - 65 + 97 <=? 122)) with true; [split; [reflexivity|lia]|].
  symmetry. rewrite andb_true_iff, !Z.leb_le. lia.
Qed.

Lemma ndd_cons x l : x <> 45 -> no_double_dash l = true -> no_double_dash (x :: l) = true.
Proof.
  intros Hx Hl. destruct l as [|y l]; [reflexivity|]. cbn [no_double_dash] in *.
  rewrite Hl, (proj2 (Z.eqb_neq x 45) Hx). reflexivity.
Qed.

Lemma ndd_cons_dash l : hd 0 l <> 45 -> no_double_dash l = true ->
  no_double_dash (45 :: l) = true.
Proof.
  intros Hx Hl. destruct l as [|y l]; [reflexivity|]. cbn [no_double_dash hd] in *.
  rewrite Hl, (proj2 (Z.eqb_neq y 45) Hx), andb_false_r. reflexivity.
Qed.

Lemma slug_go_inv p s :
  forallb slug_char (slug_go p s) = true /\ no_double_dash (slug_go p s) = true /\
  (p = true -> hd 0 (slug_go p s) <> 45).
Proof.
  revert p; induction s as [|x rest IH]; intros p; [repeat split; discriminate|].
  cbn [slug_go].
  destruct (((97 <=? x) && (x <=? 122)) || ((48 <=? x) && (x <=? 57))) eqn:Ek.
  { destruct (slug_keep x Ek) as [Hc Hx]. destruct (IH false) as [Hf [Hn _]].
    cbn [forallb hd]. rewrite Hc, Hf. repeat split; [apply ndd_cons; assumption|].
    intros _. exact Hx. }
  destruct ((65 <=? x) && (x <=? 90)) eqn:Eu.
  { destruct (slug_lower x Eu) as [Hc Hx]. destruct (IH false) as [Hf [Hn _]].
    cbn [forallb hd]. rewrite Hc, Hf. repeat split; [apply ndd_cons; assumption|].
    intros _. exact Hx. }
  destruct p; [exact (IH true)|].
  destruct (IH true) as [Hf [Hn Hh]]. cbn [forallb]. rewrite Hf. repeat split.
  - apply ndd_cons_dash; [apply Hh; reflexivity|exact Hn].
  - discriminate.
Qed.

Lemma last_hd_rev (l : bytes) : last l 0 = hd 0 (rev l).
Proof.
  destruct l as [|x l] using rev_ind; [reflexivity|].
  rewrite last_last, rev_app_distr. reflexivity.
Qed.

Lemma pop_dash_cases (v : bytes) :
  (match rev v with 45 :: r => rev r | _ => v end = v /\ hd 0 (rev v) <> 45) \/
  (exists r, rev v = 45 :: r /\ match rev v with 45 :: r => rev r | _ => v end = rev r).
Proof.
  destruct (rev v) as [|z r] eqn:E; [left; split; [reflexivity|discriminate]|].
  destruct (Z.eq_dec z 45) as [->|Hne]; [right; exists r; split; reflexivity|left].
  split; [|exact Hne].
  destruct z as [|p|p]; try reflexivity;
    repeat (destruct p as [p|p|]; try reflexivity); exfalso; apply Hne; reflexivity.
Qed.

Lemma ndd_app_l l1 l2 : no_double_dash (l1 ++ l2) = true -> no_double_dash l1 = true.
Proof.
  induction l1 as [|x l1 IH]; [reflexivity|]. destruct l1 as [|y l1]; [reflexivity|].
  cbn [app no_double_dash] in *. intros H. apply andb_true_iff in H as [Hx H].
  rewrite Hx. apply IH. exact H.
Qed.

Lemma ndd_tail x l : no_double_dash (x :: l) = true -> no_double_dash l = true.
Proof.
  destruct l as [|y l]; [reflexivity|]. cbn [no_double_dash].
  intros H. apply andb_true_iff in H as [_ H]. exact H.
Qed.

Lemma ndd_last_dash l y : no_double_dash (l ++ [y; 45]) = true -> y <> 45.
Proof.
  induction l as [|x l IH].
  - cbn [app no_double_dash]. intros H. apply andb_true_iff in H as [H _].
    intros ->. discriminate H.
  - intros H. apply IH. exact (ndd_tail x _ H).
Qed.

Lemma slugify_is_slug_all s : is_slug (slugify s) = true.
Proof.
  destruct (slug_go_inv true s) as [Hf [Hn Hh]]. specialize (Hh eq_refl).
  unfold slugify, is_slug. set (v := slug_go true s) in *.
  destruct (pop_dash_cases v) as [[-> Hl] | [r [Er ->]]].
  - rewrite Hf, Hn, <- last_hd_rev in *.
    rewrite (proj2 (Z.eqb_neq _ _) Hh), (proj2 (Z.eqb_neq _ _) Hl). reflexivity.
  - assert (Hv : v = rev r ++ [45]) by (rewrite <- (rev_involutive v), Er; reflexivity).
    rewrite Hv in Hf, Hn, Hh. rewrite forallb_app in Hf. apply andb_true_iff in Hf as [Hf _].
    rewrite Hf, (ndd_app_l _ _ Hn). cbn [andb].
    assert (H1 : hd 0 (rev r) <> 45) by (destruct (rev r); [discriminate|exact Hh]).
    assert (H2 : last (rev r) 0 <> 45).
    { destruct (rev r) as [|y u] using rev_ind; [discriminate|].
      rewrite last_last. apply (ndd_last_dash u). rewrite <- app_assoc in Hn. exact Hn. }
    rewrite (proj2 (Z.eqb_neq _ _) H1), (proj2 (Z.eqb_neq _ _) H2). reflexivity.
Qed.

Lemma slug_go_id p v : forallb slug_char v = true -> no_double_dash v = true ->
  (p = true -> hd 0 v <> 45) -> slug_go p v = v.
Proof.
  revert p; induction v as [|x v IH]; intros p Hf Hn Hh; [reflexivity|].
  cbn [forallb] in Hf. apply andb_true_iff in Hf as [Hx Hf]. cbn [slug_go].
  unfold slug_char in Hx.
  destruct (((97 <=? x) && (x <=? 122)) || ((48 <=? x) && (x <=? 57))) eqn:Ek.
  - f_equal. apply IH; [exact Hf|exact (ndd_tail x _ Hn)|discriminate].
  - cbn [orb] in Hx. apply Z.eqb_eq in Hx. subst x. change (65 <=? 45) with false. cbn [andb].
    destruct p; [exfalso; apply (Hh eq_refl); reflexivity|].
    f_equal. apply IH; [exact Hf|exact (ndd_tail 45 _ Hn)|].
    intros _ Hv. destruct v as [|y v]; [discriminate|]. cbn [hd] in Hv. subst y.
    cbn [no_double_dash] in Hn. discriminate Hn.
Qed.

(** Extra: on the ASCII text it is given here, [slug::slugify] returns a
    slug (only ['a'-'z'], ['0'-'9'] and ['-'], no ['-'] at either end, no
    two ['-'] in a row), and slugifying that slug again leaves it
    unchanged. *)
Theorem slugify_slug_idempotent (s : bytes) :
  forallb (fun x => (0 <=? x) && (x <? 128)) s = true ->
  is_slug (slugify s) = true /\ slugify (slugify s) = slugify s.
Proof.
  intros _. pose proof (slugify_is_slug_all s) as Hs. split; [exact Hs|].
  set (v := slugify s) in *. unfold is_slug in Hs.
  apply andb_true_iff in Hs as [Hs Hn]. apply andb_true_iff in Hs as [Hs Hl].
  apply andb_true_iff in Hs as [Hf Hh]. apply negb_true_iff, Z.eqb_neq in Hh, Hl.
  unfold slugify. rewrite (slug_go_id true v Hf Hn (fun _ => Hh)).
  destruct (pop_dash_cases v) as [[-> _] | [r [Er _]]]; [reflexivity|].
  exfalso. apply Hl. rewrite last_hd_rev, Er. reflexivity.
Qed.

Lemma slugify_slug_idempotent_witness :
  is_slug (slugify (b "2018-02-14T00:28:07.123456789Z")) = true /\
  slugify (slugify (b "2018-02-14T00:28:07.123456789Z")) =
    slugify (b "2018-02-14T00:28:07.123456789Z").
Proof. apply slugify_slug_idempotent. vm_compute. reflexivity. Defined.

(** ** [humantime::format_rfc3339] *)

(** Extra: [format_rfc3339] is injective on well-formed system times: two
    times that format to the same text are the same time. *)
Theorem format_rfc3339_inj t1 t2 rfc :
  SystemTime_wf t1 -> SystemTime_wf t2 ->
  format_rfc3339 t1 = Some rfc -> format_rfc3339 t2 = Some rfc -> t1 = t2.
Proof.
  intros W1 W2 F1 F2. exact (format_slug_inj t1 t2 rfc rfc W1 W2 F1 F2 eq_refl).
Qed.

Lemma format_rfc3339_inj_witness :
  mkTime 1518568087 123456789 = mkTime 1518568087 123456789.
Proof.
  apply (format_rfc3339_inj _ _ (b "2018-02-14T00:28:07.123456789Z"));
    [unfold SystemTime_wf; cbn; lia | unfold SystemTime_wf; cbn; lia
    | vm_compute; reflexivity | vm_compute; reflexivity].
Defined.

(** Extra: from 1970 to the end of year 9999, [format_rfc3339] does not
    panic, and its text starts with the year, month and day ([YYYY-MM-DD])
    of a valid calendar date ([1 <= MM <= 12], [1 <= DD <= 31]) that lies
    as many days after 2000-03-01 (counted in the proleptic Gregorian
    calendar) as the time's whole days since the epoch, less [LEAPOCH]. *)
Theorem format_rfc3339_date t :
  0 <= st_secs t < 253402300800 ->
  exists rfc y m d,
    format_rfc3339 t = Some rfc /\
    0 <= y <= 9999 /\ 1 <= m <= 12 /\ 1 <= d <= 31 /\
    days_from_civil y m d = st_secs t / 86400 - LEAPOCH /\
    firstn 10 rfc = [digit (y / 1000); digit (y / 100 mod 10); digit (y / 10 mod 10);
                     digit (y mod 10); 45; digit (m / 10); digit (m mod 10); 45;
                     digit (d / 10); digit (d mod 10)].
Proof.
  intros Hs. pose proof (civil_spec _ (days_range _ Hs)) as HC.
  unfold format_rfc3339.
  destruct (Z.ltb_spec (st_secs t) 0); [lia|].
  destruct (Z.leb_spec 253402300800 (st_secs t)); [lia|].
  destruct (civil (st_secs t / 86400 - LEAPOCH)) as [[y m] d].
  destruct HC as (Hy & Hm & Hd & Hc).
  destruct (st_nanos t =? 0); eexists; exists y, m, d; (split; [reflexivity|]);
    repeat split; try lia; reflexivity.
Qed.

Lemma format_rfc3339_date_witness :
  exists rfc y m d,
    format_rfc3339 (mkTime 1518568087 123456789) = Some rfc /\
    0 <= y <= 9999 /\ 1 <= m <= 12 /\ 1 <= d <= 31 /\
    days_from_civil y m d = st_secs (mkTime 1518568087 123456789) / 86400 - LEAPOCH /\
    firstn 10 rfc = [digit (y / 1000); digit (y / 100 mod 10); digit (y / 10 mod 10);
                     digit (y mod 10); 45; digit (m / 10); digit (m mod 10); 45;
                     digit (d / 10); digit (d mod 10)].
Proof. apply format_rfc3339_date. cbn. lia. Defined.

(** ** [TempLibrary::new]: the handle it returns *)

Lemma temp_library_new_body_some env dyl bts p dir w t w' :
  temp_library_new_body env dyl bts p dir w = (ROk (Some t), w') ->
  exists w1, @library_new env CreateTempLibraryError dyl w1 = (ROk (tl_lib t), w') /\
    tl_path t = p /\ build_timestamp t = bts /\ tl_lib t <> None.
Proof.
  unfold temp_library_new_body, bind, path_exists.
  destruct (w_fs w p) as [c|].
  - destruct (is_macos env).
    + destruct (file_name p) as [f|]; cbn [expect ret panic]; [|discriminate].
      unfold run_install_name_tool.
      destruct (env_install_name_tool env (w_fs w p)) as [[out c']|]; cbn [ret panic];
        [|discriminate].
      destruct (utf8_valid (stdout out)); [|discriminate].
      destruct (utf8_valid (stderr out)); [|discriminate]. cbn [ret].
      match goal with |- context [@library_new env CreateTempLibraryError dyl ?w1] =>
        destruct (@library_new env CreateTempLibraryError dyl w1) as [[[l|]| | |] w2] eqn:El end;
        cbn [throw ret]; try discriminate.
      intros H; injection H as <- <-. eexists. split; [exact El|]. cbn. repeat split. discriminate.
    + cbn [ret]. destruct (@library_new env CreateTempLibraryError dyl w) as [[[l|]| | |] w2] eqn:El;
        cbn [throw ret]; try discriminate.
      intros H; injection H as <- <-. eexists. split; [exact El|]. cbn. repeat split. discriminate.
  - unfold create_dir_all. destruct (env_create_dir_all_ok env dir); cbn [negb throw]; [|discriminate].
    unfold fs_copy. destruct (w_fs _ dyl); [destruct (env_copy_ok env dyl p)|];
      cbn [negb throw ret]; discriminate.
Qed.

(** Extra: a [TempLibrary] returned by [TempLibrary::new] carries the
    library file's creation time as its build timestamp, and the temporary
    path made from the library name and that time; it holds the library of
    the last [dlopen], a successful one of the library file itself. *)
Theorem temp_library_new_handle env fuel dylib name w t w' :
  temp_library_new env fuel dylib name w = (ROk t, w') ->
  exists bts p lib tr,
    env_created env dylib = Some bts /\
    tmp_dylib_path (env_os env) (env_temp_root env) name bts = Some p /\
    build_timestamp t = bts /\ tl_path t = p /\ tl_lib t = Some lib /\
    w_next_lib w' = S lib /\ w_trace w' = tr ++ [EvDlopen dylib true].
Proof.
  unfold temp_library_new. cbv beta iota delta [bind path_exists].
  destruct (w_fs w dylib); cbn [negb]; [|discriminate].
  destruct (env_created env dylib) as [bts|]; [|discriminate].
  destruct (tmp_dylib_path (env_os env) (env_temp_root env) name bts) as [p|] eqn:Ep;
    cbn [expect ret panic]; [|discriminate].
  destruct (parent p) as [dir|]; cbn [expect ret panic]; [|discriminate].
  unfold fs_write. destruct (env_write_ok env debug_file); cbn [ret panic]; [|discriminate].
  intros H. destruct (loop_ok _ _ _ _ _ H) as [w0 H0].
  destruct (temp_library_new_body_some _ _ _ _ _ _ _ _ H0) as [w1 [El [Hp [Ht Hl]]]].
  destruct (tl_lib t) as [lib|] eqn:Etl; [|contradiction].
  destruct (library_new_some _ _ _ _ _ _ El) as [-> [Hn [_ [Htr _]]]].
  exists bts, p, (w_next_lib w1), (w_trace w1). repeat split; assumption.
Qed.

Lemma temp_library_new_handle_witness :
  exists t w',
    temp_library_new (sample_env Linux (fun _ => None) None) 2 sample_dylib (b "foo")
      sample_world = (ROk t, w') /\
    exists bts p lib tr,
      env_created (sample_env Linux (fun _ => None) None) sample_dylib = Some bts /\
      tmp_dylib_path (env_os (sample_env Linux (fun _ => None) None))
        (env_temp_root (sample_env Linux (fun _ => None) None)) (b "foo") bts = Some p /\
      build_timestamp t = bts /\ tl_path t = p /\ tl_lib t = Some lib /\
      w_next_lib w' = S lib /\ w_trace w' = tr ++ [EvDlopen sample_dylib true].
Proof.
  eexists; eexists. split; [vm_compute; reflexivity|].
  apply temp_library_new_handle with (fuel := 2%nat) (w := sample_world). vm_compute. reflexivity.
Defined.

(** ** [Build::load] then [Drop] *)

Lemma path_eqb_true p q : path_eqb q p = true -> q = p.
Proof. unfold path_eqb. destruct (list_eq_dec (list_eq_dec Z.eq_dec) q p); congruence. Qed.

(** Extra: off macOS, when [Build::load] makes a fresh temporary copy and
    loads it, dropping the returned [TempLibrary] unloads that library and
    removes the copy, which leaves every file as it was before the load. *)
Theorem load_then_drop_restores env n bd w d p c :
  build_dylib_path env bd = Some d -> build_tmp_dylib_path env bd = Some p ->
  w_fs w d = Some c -> w_fs w p = None -> is_macos env = false ->
  env_create_dir_all_ok env (removelast p) = true -> env_copy_ok env d p = true ->
  env_loader_accepts env c = true ->
  exists t w',
    build_load env (S (S n)) bd w = (ROk t, w') /\
    let '(h, w'') := drop_temp_library t w' in
    tl_lib h = None /\ (forall q, w_fs w'' q = w_fs w q) /\
    w_trace w'' = w_trace w ++
      [EvCreateDirAll (removelast p); EvCopy d p; EvDlopen p true;
       EvUnload (w_next_lib w); EvRemoveFile p true].
Proof.
  intros Hd Hp Hfd Hfp Hm Hcr Hcp Ha.
  destruct (build_load_fresh_copy_run env n bd w d p c Hd Hp Hfd Hfp Hm Hcr Hcp Ha)
    as [w' [E [Hw [Ho [_ Htr]]]]].
  eexists; exists w'. split; [exact E|].
  unfold drop_temp_library, remove_file. cbn [tl_lib tl_path emit w_fs]. rewrite Hw.
  cbn. split; [reflexivity|]. split.
  - intros q. destruct (path_eqb q p) eqn:Eq.
    + apply path_eqb_true in Eq. subst q. symmetry. exact Hfp.
    + apply Ho. intros ->. rewrite path_eqb_refl in Eq. discriminate.
  - rewrite Htr, <- !app_assoc. reflexivity.
Qed.

Lemma load_then_drop_restores_witness :
  let env := sample_env Linux (fun _ => None) None in
  let bd := sample_build (mkTime 1518568087 0) in
  let p := sample_tmp_path env (mkTime 1518568087 0) in
  exists t w',
    build_load env 2 bd sample_world = (ROk t, w') /\
    let '(h, w'') := drop_temp_library t w' in
    tl_lib h = None /\ (forall q, w_fs w'' q = w_fs sample_world q) /\
    w_trace w'' = w_trace sample_world ++
      [EvCreateDirAll (removelast p); EvCopy sample_dylib p; EvDlopen p true;
       EvUnload (w_next_lib sample_world); EvRemoveFile p true].
Proof.
  intros env bd p.
  exact (load_then_drop_restores env 0 bd sample_world sample_dylib p [1; 2; 3]
           ltac:(vm_compute; reflexivity) ltac:(vm_compute; reflexivity)
           ltac:(vm_compute; reflexivity) ltac:(vm_compute; reflexivity)
           ltac:(vm_compute; reflexivity) ltac:(vm_compute; reflexivity)
           ltac:(vm_compute; reflexivity) ltac:(vm_compute; reflexivity)).
Defined.
